(** * tinyControl: the state-space model engine ([tcontrol/statespace.py])

    A shallow embedding of the [StateSpace] class and of the part of numpy
    it relies on, followed by the properties of the model that the
    specification states.

    Conventions of the embedding.
    - A two-dimensional numpy array ([np.matrix] or a 2-D [np.ndarray]) is
      a shape together with an entry function; entries outside the shape
      are never read.
    - A one-dimensional array is a list.
    - Scalars are an abstract type with the arithmetic of the array's
      dtype; all arithmetic is the exact one of the operations supplied.
    - A Python exception is a value of [exn]; a computation that may raise
      is a [result]. *)

From Stdlib Require Import String DecimalString.
From Stdlib Require Import List Arith ZArith QArith Qreduction Bool Lia Lqa.
Import ListNotations.

Set Implicit Arguments.

Open Scope string_scope.
Open Scope list_scope.
Open Scope nat_scope.

(** ** Exceptions and the error monad *)

Inductive exn : Type :=
| ValueError (msg : string)
| TypeError (msg : string)
| LinAlgError (msg : string)
| IndexError (msg : string).

Inductive result (X : Type) : Type :=
| Ok (x : X)
| Raise (e : exn).

Arguments Ok {X} x.
Arguments Raise {X} e.

Definition bind {X Y : Type} (r : result X) (f : X -> result Y) : result Y :=
  match r with
  | Ok x => f x
  | Raise e => Raise e
  end.

Notation "x <- r ;; k" := (bind r (fun x => k))
  (at level 61, r at next level, right associativity).

(** Whether a computation returned, and what it returned. *)
Definition is_Ok {X : Type} (r : result X) : bool :=
  match r with
  | Ok _ => true
  | Raise _ => false
  end.

Definition value_or {X : Type} (r : result X) (d : X) : X :=
  match r with
  | Ok x => x
  | Raise _ => d
  end.

(** ** Scalars *)

(** The arithmetic of the entries of an array.  [of_int] is the conversion
    of a Python [int] to the dtype of the array it is combined with, and
    [seqb] is the comparison [==]. *)
Class Scalar (R : Type) : Type := {
  szero : R;
  sone : R;
  sadd : R -> R -> R;
  ssub : R -> R -> R;
  smul : R -> R -> R;
  sopp : R -> R;
  seqb : R -> R -> bool;
  of_int : Z -> R
}.

(** The ring laws used where a property rearranges a product. *)
Class ScalarLaws (R : Type) `{Scalar R} : Prop := {
  smul_assoc : forall x y z : R, smul (smul x y) z = smul x (smul y z);
  smul_sadd_distr_l : forall x y z : R,
      smul x (sadd y z) = sadd (smul x y) (smul x z);
  smul_szero_r : forall x : R, smul x szero = szero
}.

Arguments ScalarLaws R {H}.

(** ** Two-dimensional arrays *)

Record matrix (R : Type) : Type := mk_matrix {
  nrows : nat;
  ncols : nat;
  entry : nat -> nat -> R
}.

Arguments mk_matrix {R} nrows ncols entry.

Definition shape {R : Type} (m : matrix R) : nat * nat := (nrows m, ncols m).

(** Equality of arrays as values: same shape, same entries inside it. *)
Definition mat_eq {R : Type} (a b : matrix R) : Prop :=
  nrows a = nrows b /\ ncols a = ncols b /\
  forall i j, i < nrows a -> j < ncols a -> entry a i j = entry b i j.

(** The rows of an array, for display and for comparison on examples. *)
Definition to_rows {R : Type} (m : matrix R) : list (list R) :=
  map (fun i => map (entry m i) (seq 0 (ncols m))) (seq 0 (nrows m)).

(** [np.linalg.inv] and [np.linalg.pinv]: numpy's own code, taken as given. *)
Class Linalg (R : Type) : Type := {
  linalg_inv : matrix R -> result (matrix R);
  linalg_pinv : matrix R -> result (matrix R)
}.

Section Numpy.

Context {R : Type} `{Scalar R}.

Definition shape_eqb (s t : nat * nat) : bool :=
  (fst s =? fst t) && (snd s =? snd t).

Fixpoint sum_upto (n : nat) (f : nat -> R) : R :=
  match n with
  | O => szero
  | S n' => sadd (sum_upto n' f) (f n')
  end.

(** [np.zeros((r, c))], [np.ones((r, c))], [np.eye(n)]. *)
Definition zeros (r c : nat) : matrix R := mk_matrix r c (fun _ _ => szero).
Definition ones (r c : nat) : matrix R := mk_matrix r c (fun _ _ => sone).
Definition eye (n : nat) : matrix R :=
  mk_matrix n n (fun i j => if i =? j then sone else szero).

(** [m.T]. *)
Definition transpose (m : matrix R) : matrix R :=
  mk_matrix (ncols m) (nrows m) (fun i j => entry m j i).

(** [-m], [x * m] for a scalar [x] on the left, [m * x] on the right. *)
Definition neg (m : matrix R) : matrix R :=
  mk_matrix (nrows m) (ncols m) (fun i j => sopp (entry m i j)).
Definition scale (x : R) (m : matrix R) : matrix R :=
  mk_matrix (nrows m) (ncols m) (fun i j => smul x (entry m i j)).
Definition scale_r (m : matrix R) (x : R) : matrix R :=
  mk_matrix (nrows m) (ncols m) (fun i j => smul (entry m i j) x).

(** Broadcasting of two 2-D shapes: an axis is compatible when the two
    lengths agree or one of them is 1. *)
Definition broadcastable (d1 d2 : nat) : bool :=
  (d1 =? d2) || (d1 =? 1) || (d2 =? 1).
Definition bdim (d1 d2 : nat) : nat := if d1 =? 1 then d2 else d1.
Definition bidx (d i : nat) : nat := if d =? 1 then 0 else i.

Definition broadcast2 (f : R -> R -> R) (a b : matrix R) : result (matrix R) :=
  if broadcastable (nrows a) (nrows b) && broadcastable (ncols a) (ncols b)
  then Ok (mk_matrix (bdim (nrows a) (nrows b)) (bdim (ncols a) (ncols b))
             (fun i j => f (entry a (bidx (nrows a) i) (bidx (ncols a) j))
                           (entry b (bidx (nrows b) i) (bidx (ncols b) j))))
  else Raise (ValueError "operands could not be broadcast together").

(** [a + b] and [a - b] on arrays. *)
Definition madd : matrix R -> matrix R -> result (matrix R) := broadcast2 sadd.
Definition msub : matrix R -> matrix R -> result (matrix R) := broadcast2 ssub.

(** The matrix product, unchecked, and [a * b] on [np.matrix] operands
    ([np.dot]), which raises when the inner lengths differ. *)
Definition mprod (a b : matrix R) : matrix R :=
  mk_matrix (nrows a) (ncols b)
    (fun i j => sum_upto (ncols a) (fun k => smul (entry a i k) (entry b k j))).

Definition dot (a b : matrix R) : result (matrix R) :=
  if ncols a =? nrows b then Ok (mprod a b)
  else Raise (ValueError "shapes not aligned").

(** [np.concatenate((a, b), axis=0)] and [np.concatenate((a, b), axis=1)]. *)
Definition vstack (a b : matrix R) : matrix R :=
  mk_matrix (nrows a + nrows b) (ncols a)
    (fun i j => if i <? nrows a then entry a i j else entry b (i - nrows a) j).
Definition hstack (a b : matrix R) : matrix R :=
  mk_matrix (nrows a) (ncols a + ncols b)
    (fun i j => if j <? ncols a then entry a i j else entry b i (j - ncols a)).

Definition concatenate (axis : nat) (a b : matrix R) : result (matrix R) :=
  match axis with
  | 0 => if ncols a =? ncols b then Ok (vstack a b)
         else Raise (ValueError "all the input array dimensions except for the concatenation axis must match exactly")
  | _ => if nrows a =? nrows b then Ok (hstack a b)
         else Raise (ValueError "all the input array dimensions except for the concatenation axis must match exactly")
  end.

(** The length of the slice [start:stop] of an axis of length [dim]. *)
Definition slice_len (start : nat) (stop : option nat) (dim : nat) : nat :=
  match stop with
  | Some s => Nat.min s dim - Nat.min start dim
  | None => dim - Nat.min start dim
  end.

(** [A[r0:r1, c0:c1] = M]: [M] is broadcast to the selected block. *)
Definition setitem (A : matrix R) (r0 : nat) (r1 : option nat)
           (c0 : nat) (c1 : option nat) (M : matrix R) : result (matrix R) :=
  let h := slice_len r0 r1 (nrows A) in
  let w := slice_len c0 c1 (ncols A) in
  if ((nrows M =? h) || (nrows M =? 1)) && ((ncols M =? w) || (ncols M =? 1))
  then Ok (mk_matrix (nrows A) (ncols A)
             (fun i j =>
                if (r0 <=? i) && (i <? r0 + h) && (c0 <=? j) && (j <? c0 + w)
                then entry M (bidx (nrows M) (i - r0)) (bidx (ncols M) (j - c0))
                else entry A i j))
  else Raise (ValueError "could not broadcast input array").

(** [A ** i] on an [np.matrix] ([np.linalg.matrix_power]) for [i >= 0]:
    the [i]-fold product, the identity for [i = 0]. *)
Fixpoint mpow (A : matrix R) (i : nat) : matrix R :=
  match i with
  | O => eye (nrows A)
  | S i' => mprod (mpow A i') A
  end.

Definition matrix_power (A : matrix R) (i : nat) : result (matrix R) :=
  if nrows A =? ncols A then Ok (mpow A i)
  else Raise (LinAlgError "Last 2 dimensions of the array must be square").

(** [np.array_equal(a, b)]. *)
Definition array_equal (a b : matrix R) : bool :=
  shape_eqb (shape a) (shape b) &&
  forallb (fun i => forallb (fun j => seqb (entry a i j) (entry b i j))
                            (seq 0 (ncols a)))
          (seq 0 (nrows a)).

(** *** One-dimensional arrays and their conversions *)

(** [np.mat] of a list of equally long rows.  The empty list gives the
    shape (1, 0), as [np.mat([])] does. *)
Definition row_length (l : list (list R)) : nat :=
  match l with
  | [] => 0
  | r :: _ => length r
  end.

Definition of_rows (l : list (list R)) : result (matrix R) :=
  match l with
  | [] => Ok (mk_matrix 1 0 (fun _ _ => szero))
  | r :: _ =>
      if forallb (fun r' => length r' =? length r) l
      then Ok (mk_matrix (length l) (length r)
                 (fun i j => nth j (nth i l []) szero))
      else Raise (ValueError "setting an array element with a sequence")
  end.

(** [np.mat] of a flat list: one row. *)
Definition of_list (l : list R) : matrix R :=
  mk_matrix 1 (length l) (fun _ j => nth j l szero).

(** [np.asarray(M[-1]).reshape(-1)]: the last row as a 1-D array. *)
Definition last_row (M : matrix R) : result (list R) :=
  match nrows M with
  | O => Raise (IndexError "index -1 is out of bounds for axis 0 with size 0")
  | S i => Ok (map (entry M i) (seq 0 (ncols M)))
  end.

(** [np.asarray(M).reshape(-1)] for any 2-D [M]: row-major flattening. *)
Definition flatten (M : matrix R) : list R := concat (to_rows M).

(** [p * M] for a 1-D array [p] and an [np.matrix] [M]: [np.dot(p, M)],
    a matrix with one row. *)
Definition vec_dot (p : list R) (M : matrix R) : result (matrix R) :=
  if length p =? nrows M
  then Ok (mk_matrix 1 (ncols M)
             (fun _ j => sum_upto (length p)
                           (fun k => smul (nth k p szero) (entry M k j))))
  else Raise (ValueError "shapes not aligned").

(** [p + a] on 1-D arrays, with broadcasting of a one-element operand. *)
Definition vec_add (p a : list R) : result (list R) :=
  if length p =? length a then Ok (map (fun xy => sadd (fst xy) (snd xy)) (combine p a))
  else if length p =? 1 then Ok (map (fun y => sadd (nth 0 p szero) y) a)
  else if length a =? 1 then Ok (map (fun x => sadd x (nth 0 a szero)) p)
  else Raise (ValueError "operands could not be broadcast together").

(** [np.convolve(a, [1, -z])]: the coefficients of [a(s) * (s - z)]. *)
Fixpoint convolve_linear_aux (prev : R) (a : list R) (z : R) : list R :=
  match a with
  | [] => [smul prev (sopp z)]
  | x :: a' => sadd (smul x sone) (smul prev (sopp z)) :: convolve_linear_aux x a' z
  end.

Definition convolve_linear (a : list R) (z : R) : list R :=
  match a with
  | [] => []
  | x :: a' => smul x sone :: convolve_linear_aux x a' z
  end.

(** [np.poly(seq_of_zeros)] on a 1-D sequence: the float [1.0] for the
    empty sequence, otherwise the coefficient array, leading 1 first. *)
Inductive poly_value : Type :=
| PolyFloat (x : R)
| PolyArray (a : list R).

Definition np_poly (zeros_ : list R) : poly_value :=
  match zeros_ with
  | [] => PolyFloat sone
  | _ => PolyArray (fold_left convolve_linear zeros_ [sone])
  end.

(** [v[1:]]. *)
Definition tail_from_1 (v : poly_value) : result (list R) :=
  match v with
  | PolyFloat _ => Raise (TypeError "'float' object is not subscriptable")
  | PolyArray a => Ok (tl a)
  end.

(** The property [M.I] of [np.matrix]: the inverse of a square matrix,
    the pseudo-inverse otherwise. *)
Context `{Linalg R}.

Definition getI (M : matrix R) : result (matrix R) :=
  if nrows M =? ncols M then linalg_inv M else linalg_pinv M.

End Numpy.

(** ** The state-space model *)

(** What the constructor accepts for each of A, B, C, D: a 2-D array, a
    number, a flat list or a list of rows. *)
Inductive array_like (R : Type) : Type :=
| Mat (m : matrix R)
| Num (x : R)
| List1 (l : list R)
| List2 (l : list (list R)).

Arguments Num {R} x.
Arguments List1 {R} l.
Arguments List2 {R} l.

(** Modelled from the spec: the base class [LinearTimeInvariant]
    ([tcontrol/lti.py] is not among the sources).  Its constructor receives
    the number of inputs, the number of outputs and the sampling time and
    keeps them as the fields [inputs], [outputs] and [dt]; a sampling time
    that is not set is [None]. *)
Record StateSpace (R : Type) : Type := mk_StateSpace {
  A : matrix R;
  B : matrix R;
  C : matrix R;
  D : matrix R;
  inputs : nat;
  outputs : nat;
  dt : option R
}.

(** The objects the constructor produces: the four shape invariants hold
    and the input and output counts are those of B and C. *)
Definition constructed {R : Type} (s : StateSpace R) : Prop :=
  nrows (A s) = ncols (A s) /\
  nrows (B s) = nrows (A s) /\
  ncols (C s) = nrows (A s) /\
  nrows (D s) = nrows (C s) /\
  ncols (D s) = ncols (B s) /\
  inputs s = ncols (B s) /\
  outputs s = nrows (C s).

(** The error kinds of the specification, as the exceptions of the code:
    every one of them is a [ValueError] or numpy's [LinAlgError], told
    apart by the place that raises it. *)
Definition shape_messages : list string :=
  [ "{0} != {1}, wrong shape of A";
    "{0} != ({1}, {2}), wrong shape of B";
    "{0} != ({1}, {2}), wrong shape of C";
    "{0} != ({1}, {2}), wrong shape of D";
    "shapes of D are not equal {0}, {1}";
    "outputs are not equal to inputs";
    "shapes not aligned";
    "operands could not be broadcast together";
    "could not broadcast input array";
    "all the input array dimensions except for the concatenation axis must match exactly" ].

Definition ShapeMismatch (e : exn) : Prop :=
  match e with
  | ValueError msg => In msg shape_messages
  | _ => False
  end.

Definition IncompatibleSamplingTime (e : exn) : Prop :=
  e = ValueError "different sampling times" \/
  e = ValueError "Sampling time is different. one is {0}, the other is {1}".

Definition SingularMatrix (e : exn) : Prop :=
  e = LinAlgError "Singular matrix".

Section Model.

Context {R : Type} `{Scalar R} `{Linalg R}.

(** [np.mat(x)]. *)
Definition np_mat (x : array_like R) : result (matrix R) :=
  match x with
  | Mat m => Ok m
  | Num v => Ok (mk_matrix 1 1 (fun _ _ => v))
  | List1 l => Ok (of_list l)
  | List2 l => of_rows l
  end.

(** [StateSpace.__init__(self, A, B, C, D, *, dt=None)]. *)
Definition StateSpace_init (A B C D : array_like R) (dt : option R)
  : result (StateSpace R) :=
  A <- np_mat A ;;
  B <- np_mat B ;;
  C <- np_mat C ;;
  D <- np_mat D ;;
  if negb (nrows A =? ncols A) then
    Raise (ValueError "{0} != {1}, wrong shape of A")
  else if negb (nrows B =? nrows A) then
    Raise (ValueError "{0} != ({1}, {2}), wrong shape of B")
  else if negb (ncols C =? nrows A) then
    Raise (ValueError "{0} != ({1}, {2}), wrong shape of C")
  else if negb (shape_eqb (shape D) (nrows C, ncols B)) then
    Raise (ValueError "{0} != ({1}, {2}), wrong shape of D")
  else
    Ok (mk_StateSpace A B C D (ncols B) (nrows C) dt).

(** [StateSpace.__eq__] and [StateSpace.__ne__]. *)
Definition StateSpace_eq (self other : StateSpace R) : bool :=
  array_equal (A self) (A other) &&
  array_equal (B self) (B other) &&
  array_equal (C self) (C other) &&
  array_equal (D self) (D other).

Definition StateSpace_ne (self other : StateSpace R) : bool :=
  if StateSpace_eq self other then false else true.

(** [StateSpace.__neg__]. *)
Definition StateSpace_neg (self : StateSpace R) : result (StateSpace R) :=
  StateSpace_init (Mat (A self)) (Mat (B self))
                  (Mat (neg (C self))) (Mat (neg (D self))) (dt self).

(** The sampling-time block shared, up to the message, by [__add__]
    and [__mul__]:
[[
    if self.dt is None and other.dt is not None:   dt = other.dt
    elif self.dt is not None and other.dt is None or self.dt == other.dt:
                                                    dt = self.dt
    else: raise ValueError(msg)
]] *)
Definition py_eq_dt (x y : option R) : bool :=
  match x, y with
  | None, None => true
  | Some a, Some b => seqb a b
  | _, _ => false
  end.

Definition is_None (x : option R) : bool :=
  match x with
  | None => true
  | Some _ => false
  end.

Definition sampling_time (msg : string) (self other : StateSpace R)
  : result (option R) :=
  if is_None (dt self) && negb (is_None (dt other)) then Ok (dt other)
  else if (negb (is_None (dt self)) && is_None (dt other))
          || py_eq_dt (dt self) (dt other) then Ok (dt self)
  else Raise (ValueError msg).

(** [StateSpace.__add__]. *)
Definition StateSpace_add (self other : StateSpace R) : result (StateSpace R) :=
  if negb (shape_eqb (shape (D self)) (shape (D other))) then
    Raise (ValueError "shapes of D are not equal {0}, {1}")
  else
    dt' <- sampling_time "different sampling times" self other ;;
    let A0 := zeros (nrows (A self) + nrows (A other))
                    (ncols (A self) + ncols (A other)) in
    A1 <- setitem A0 0 (Some (nrows (A self))) 0 (Some (ncols (A self))) (A self) ;;
    A2 <- setitem A1 (nrows (A self)) None (ncols (A self)) None (A other) ;;
    B' <- concatenate 0 (B self) (B other) ;;
    C' <- concatenate 1 (C self) (C other) ;;
    D' <- madd (D self) (D other) ;;
    StateSpace_init (Mat A2) (Mat B') (Mat C') (Mat D') dt'.

(** The right operand of [*]: a state-space model or any other object,
    of which [_convert_to_ss] tells numbers and other LTI models apart. *)
Variable TransferFunction : Type.
Variable tf2ss : TransferFunction -> result (StateSpace R).

Inductive py_object : Type :=
| Number (g : R)
| OtherLTI (tf : TransferFunction)
| Unsupported.

Inductive operand : Type :=
| Model (s : StateSpace R)
| Object (o : py_object).

(** [np.zeros(n, d)] with the Python int [d] in the position of the
    dtype: numpy does not accept an int as a data type. *)
Definition zeros_dtype_int (n : nat) (d : Z) : result (array_like R) :=
  Raise (TypeError "Cannot interpret '1' as a data type").

Definition default (kw : option nat) (d : nat) : nat :=
  match kw with
  | Some v => v
  | None => d
  end.

(** [_convert_to_ss(obj, **kwargs)]; the keywords [inputs] and [outputs]
    default to 1. *)
Definition convert_to_ss (obj : py_object) (kw_inputs kw_outputs : option nat)
  : result (StateSpace R) :=
  match obj with
  | Number g =>
      let inputs := default kw_inputs 1 in
      let outputs := default kw_outputs 1 in
      let a := Mat (mk_matrix 1 1 (fun _ _ => of_int 0%Z)) in
      let b := Mat (zeros 1 inputs) in
      c <- zeros_dtype_int outputs 1%Z ;;
      let d := Mat (scale_r (ones outputs inputs) g) in
      StateSpace_init a b c d None
  | OtherLTI tf => tf2ss tf
  | Unsupported => Raise (TypeError "wrong type. got {0}")
  end.

(** [StateSpace.__mul__]. *)
Definition StateSpace_mul (self : StateSpace R) (other : operand)
  : result (StateSpace R) :=
  other <- match other with
           | Model s => Ok s
           | Object o => convert_to_ss o None None
           end ;;
  if negb (outputs self =? inputs other) then
    Raise (ValueError "outputs are not equal to inputs")
  else
    dt' <- sampling_time "Sampling time is different. one is {0}, the other is {1}"
                         self other ;;
    let A0 := zeros (nrows (A self) + nrows (A other))
                    (ncols (A self) + ncols (A other)) in
    A1 <- setitem A0 0 (Some (nrows (A self))) 0 (Some (ncols (A self))) (A self) ;;
    A2 <- setitem A1 (nrows (A self)) None (ncols (A self)) None (A other) ;;
    BC <- dot (B self) (C other) ;;
    A3 <- setitem A2 0 (Some (nrows (A self))) (nrows (A self)) None BC ;;
    BD <- dot (B self) (D other) ;;
    B' <- concatenate 0 (B other) BD ;;
    DC <- dot (D self) (C other) ;;
    C' <- concatenate 1 DC (C self) ;;
    D' <- dot (D self) (D other) ;;
    StateSpace_init (Mat A3) (Mat (transpose C')) (Mat (transpose B')) (Mat D') dt'.

(** The matrix F of [feedback]:
    [F = np.eye(self.inputs) - sign * k.D * self.D]. *)
Definition feedback_F (self k : StateSpace R) (sign : Z) : result (matrix R) :=
  P <- dot (scale (of_int sign) (D k)) (D self) ;;
  msub (eye (inputs self)) P.

(** [StateSpace.feedback(self, k, sign=-1)]. *)
Definition feedback (self k : StateSpace R) (sign : Z) : result (StateSpace R) :=
  F <- feedback_F self k sign ;;
  F_inv <- getI F ;;
  F_inv_D2 <- dot F_inv (D k) ;;
  F_inv_C2 <- dot F_inv (C k) ;;
  F_inv_D2_C1 <- dot F_inv_D2 (C self) ;;
  F_inv_D2_D1 <- dot F_inv_D2 (D self) ;;
  let signed_B1 := scale (of_int sign) (B self) in
  let signed_D1 := scale (of_int sign) (D self) in
  (* A1 = self.A + signed_B1*F_inv_D2_C1 *)
  t1 <- dot signed_B1 F_inv_D2_C1 ;;
  A1 <- madd (A self) t1 ;;
  (* A2 = signed_B1*F_inv_C2 *)
  A2 <- dot signed_B1 F_inv_C2 ;;
  (* A3 = k.B*(self.C + signed_D1*F_inv_D2_C1) *)
  t3 <- dot signed_D1 F_inv_D2_C1 ;;
  t3' <- madd (C self) t3 ;;
  A3 <- dot (B k) t3' ;;
  (* A4 = k.A + sign*k.B*self.D*F_inv_C2 *)
  t4 <- dot (scale (of_int sign) (B k)) (D self) ;;
  t4' <- dot t4 F_inv_C2 ;;
  A4 <- madd (A k) t4' ;;
  left <- concatenate 0 A1 A3 ;;
  right <- concatenate 0 A2 A4 ;;
  A' <- concatenate 1 left right ;;
  (* B1 = self.B + signed_B1*F_inv_D2_D1 *)
  u1 <- dot signed_B1 F_inv_D2_D1 ;;
  B1 <- madd (B self) u1 ;;
  (* B2 = k.B*self.D + sign*k.B*self.D*F_inv_D2_D1 *)
  u2 <- dot (B k) (D self) ;;
  u3 <- dot (scale (of_int sign) (B k)) (D self) ;;
  u3' <- dot u3 F_inv_D2_D1 ;;
  B2 <- madd u2 u3' ;;
  B' <- concatenate 0 B1 B2 ;;
  (* C1 = self.C + signed_D1*F_inv_D2_C1 *)
  v1 <- dot signed_D1 F_inv_D2_C1 ;;
  C1 <- madd (C self) v1 ;;
  (* C2 = signed_D1*F_inv_C2 *)
  C2 <- dot signed_D1 F_inv_C2 ;;
  C' <- concatenate 1 C1 C2 ;;
  (* D = self.D + signed_D1*F_inv_D2_D1 *)
  w1 <- dot signed_D1 F_inv_D2_D1 ;;
  D' <- madd (D self) w1 ;;
  StateSpace_init (Mat A') (Mat B') (Mat C') (Mat D') None.

(** [StateSpace.controllability]: [B A*B ... A^(n-1)*B], built by the
    loop [for i in range(1, n): tmp = concatenate((tmp, A**i*B), axis=1)]. *)
Fixpoint controllability_loop (self : StateSpace R) (range : list nat)
         (tmp : matrix R) : result (matrix R) :=
  match range with
  | [] => Ok tmp
  | i :: range' =>
      Ai <- matrix_power (A self) i ;;
      AiB <- dot Ai (B self) ;;
      tmp' <- concatenate 1 tmp AiB ;;
      controllability_loop self range' tmp'
  end.

Definition controllability (self : StateSpace R) : result (matrix R) :=
  controllability_loop self (seq 1 (nrows (A self) - 1)) (B self).

(** A list comprehension whose body may raise. *)
Fixpoint comprehension {X Y : Type} (f : X -> result Y) (l : list X)
  : result (list Y) :=
  match l with
  | [] => Ok []
  | x :: l' => y <- f x ;; ys <- comprehension f l' ;; Ok (y :: ys)
  end.

(** [StateSpace.to_controllable_form]. *)
Definition to_controllable_form (self : StateSpace R) : result (matrix R) :=
  ctrb <- controllability self ;;
  M <- getI ctrb ;;
  p <- last_row M ;;
  T <- comprehension
         (fun i => Ai <- matrix_power (A self) i ;;
                   r <- vec_dot p Ai ;;
                   Ok (flatten r))
         (seq 0 (nrows (A self))) ;;
  T <- of_rows T ;;
  linalg_inv T.

(** The matrix that [to_controllable_form] inverts in its last step: the
    rows p * A^i, with p the last row of the inverse of the
    controllability matrix. *)
Definition controllable_form_rows (self : StateSpace R) : result (matrix R) :=
  ctrb <- controllability self ;;
  M <- getI ctrb ;;
  p <- last_row M ;;
  T <- comprehension
         (fun i => Ai <- matrix_power (A self) i ;;
                   r <- vec_dot p Ai ;;
                   Ok (flatten r))
         (seq 0 (nrows (A self))) ;;
  of_rows T.

(** [StateSpace.place(self, poles)]. *)
Definition place (self : StateSpace R) (poles : list R) : result (matrix R) :=
  T <- to_controllable_form self ;;
  TI <- getI T ;;
  TIA <- dot TI (A self) ;;
  A' <- dot TIA T ;;
  p <- tail_from_1 (np_poly poles) ;;
  let p := rev p in
  a <- last_row A' ;;
  K <- vec_add (rev p) a ;;
  TI' <- getI T ;;
  vec_dot K TI'.

End Model.

Arguments py_object R TransferFunction : clear implicits.
Arguments operand R TransferFunction : clear implicits.
Arguments Number {R TransferFunction} g.
Arguments OtherLTI {R TransferFunction} tf.
Arguments Unsupported {R TransferFunction}.
Arguments Model {R TransferFunction} s.
Arguments Object {R TransferFunction} o.

(** ** The unknowns of the Lyapunov equation *)

(** The decimal numeral of a Python [int] in an f-string. *)
Definition decimal (n : nat) : string :=
  NilEmpty.string_of_uint (Nat.to_uint n).

(** The name [(f'p_{i}{j}', f'p_{j}{i}')[i <= j]] of the sympy symbol at
    row [j] and column [i]. *)
Definition symbol_name (j i : nat) : string :=
  if i <=? j then "p_" ++ decimal j ++ decimal i
  else "p_" ++ decimal i ++ decimal j.

(** [p = [[Symbol(...) for i in range(n)] for j in range(n)]] of
    [StateSpace.lyapunov]; a sympy symbol is its name. *)
Definition lyapunov_symbols (n : nat) : list (list string) :=
  map (fun j => map (fun i => symbol_name j i) (seq 0 n)) (seq 0 n).

(** The rows of [p] chained: the unknowns handed to [sym.solve]. *)
Definition lyapunov_unknowns (n : nat) : list string :=
  concat (lyapunov_symbols n).

(** [P.evalf(subs=p_set)] for an assignment [v] of the symbols. *)
Definition lyapunov_subs {R : Type} (n : nat) (v : string -> R) : matrix R :=
  mk_matrix n n (fun j i => v (nth i (nth j (lyapunov_symbols n) []) "")).

(** ** The Lyapunov solver *)

Section Lyapunov.

Context {R : Type} `{Scalar R}.

(** [sys_.is_ctime]: a property of the base class [LinearTimeInvariant]
    ([tcontrol/lti.py] is not among the sources). *)
Variable is_ctime : StateSpace R -> bool.

(** [sym.solve(eq, unknowns)] of sympy, taken as given.  The equations are
    the values of [eq] under the assignments of the unknowns; the answer is
    the list of the pairs (symbol, value) of the solution, empty when there
    is none. *)
Variable sym_solve :
  ((string -> R) -> result (matrix R)) -> list string -> list (string * R).

(** The left-hand side that [lyapunov] equates to zero, with [X] for the
    symbol matrix: [A.T * X + X * A + eye] for a continuous-time system and
    [A.T * X * A - X + eye] for a discrete-time one. *)
Definition lyapunov_lhs (ctime : bool) (a X : matrix R) : result (matrix R) :=
  if ctime then
    t1 <- dot (transpose a) X ;;
    t2 <- dot X a ;;
    s <- madd t1 t2 ;;
    madd s (eye (nrows a))
  else
    t1 <- dot (transpose a) X ;;
    t2 <- dot t1 a ;;
    s <- msub t2 X ;;
    madd s (eye (nrows a)).

(** The matrix [eq] of [lyapunov] under an assignment [v] of the unknowns. *)
Definition lyapunov_equation (ctime : bool) (sys_ : StateSpace R) (v : string -> R)
  : result (matrix R) :=
  lyapunov_lhs ctime (A sys_) (lyapunov_subs (nrows (A sys_)) v).

(** The value that [p_set] gives to a symbol, and [p_set] as an
    assignment. *)
Definition lookup (name : string) (p_set : list (string * R)) : option R :=
  option_map snd (find (fun p => String.eqb (fst p) name) p_set).

Definition assignment (p_set : list (string * R)) : string -> R :=
  fun name => match lookup name p_set with
              | Some x => x
              | None => szero
              end.

Definition has_value (p_set : list (string * R)) (name : string) : bool :=
  match lookup name p_set with
  | Some _ => true
  | None => false
  end.

(** [StateSpace.lyapunov(sys_)]: [None] when the solver finds no solution;
    otherwise the symbol matrix with the solution substituted, which
    [np.asarray(..., dtype=float)] converts when every symbol has got a
    value. *)
Definition lyapunov (sys_ : StateSpace R) : result (option (matrix R)) :=
  let n := nrows (A sys_) in
  let eq := lyapunov_equation (is_ctime sys_) sys_ in
  let p_set := sym_solve eq (lyapunov_unknowns n) in
  match p_set with
  | [] => Ok None
  | _ =>
      if forallb (has_value p_set) (lyapunov_unknowns n)
      then Ok (Some (lyapunov_subs n (assignment p_set)))
      else Raise (TypeError "Cannot convert expression to float")
  end.

(** Every entry inside the shape is zero. *)
Definition all_zero (Z : matrix R) : Prop :=
  forall i j, i < nrows Z -> j < ncols Z -> entry Z i j = szero.

(** What the solver promises when it returns a solution: the equations
    hold under it. *)
Definition solver_sound : Prop :=
  forall eq unknowns,
    sym_solve eq unknowns <> [] ->
    exists Z, eq (assignment (sym_solve eq unknowns)) = Ok Z /\ all_zero Z.

End Lyapunov.

(** ** The rest of the module: duals, observability, the factories *)

Section Factories.

Context {R : Type} `{Scalar R} `{Linalg R}.

(** [StateSpace.dual_system(sys_)]; a copy of an array is the array. *)
Definition dual_system (sys_ : StateSpace R) : result (StateSpace R) :=
  StateSpace_init (Mat (transpose (A sys_))) (Mat (transpose (C sys_)))
                  (Mat (transpose (B sys_))) (Mat (transpose (D sys_))) (dt sys_).

(** [StateSpace.observability]: C, C*A, ..., C*A^(n-1) stacked, built by
    the loop [for i in range(1, n): tmp = concatenate((tmp, C*A**i), axis=0)]. *)
Fixpoint observability_loop (self : StateSpace R) (range : list nat)
         (tmp : matrix R) : result (matrix R) :=
  match range with
  | [] => Ok tmp
  | i :: range' =>
      Ai <- matrix_power (A self) i ;;
      CAi <- dot (C self) Ai ;;
      tmp' <- concatenate 0 tmp CAi ;;
      observability_loop self range' tmp'
  end.

Definition observability (self : StateSpace R) : result (matrix R) :=
  observability_loop self (seq 1 (nrows (A self) - 1)) (C self).

(** The function [place(A, B, poles)] of the module. *)
Definition place_function (A B : array_like R) (poles : list R)
  : result (matrix R) :=
  A <- np_mat A ;;
  B <- np_mat B ;;
  let C := zeros 1 (nrows A) in
  let D := zeros 1 (ncols B) in
  system <- StateSpace_init (Mat A) (Mat B) (Mat C) (Mat D) None ;;
  place system poles.

(** The positional arguments of [ss]: one object, a model or an object
    without the attributes A, B, C, D and dt; four array-likes; or any
    other number of arguments. *)
Variable TransferFunction : Type.
Variable tf2ss : TransferFunction -> result (StateSpace R).

Inductive ss_single : Type :=
| AModel (sys_ : StateSpace R)
| NoAttributes (obj : TransferFunction).

Inductive ss_args : Type :=
| OneArg (x : ss_single)
| FourArgs (A B C D : array_like R)
| OtherCount (length : nat).

(** The factory [ss] on its positional arguments; [kw_dt] is
    [kwargs.get('dt')].

    Modelled from the spec: [WrongNumberOfArguments]
    ([tcontrol/exception.py] is not among the sources) is the error of a
    call with neither 1 nor 4 positional arguments; the test of [ss]
    catches it as a [ValueError]. *)
Definition ss (args : ss_args) (kw_dt : option R) : result (StateSpace R) :=
  match args with
  | OneArg (AModel sys_) =>
      StateSpace_init (Mat (A sys_)) (Mat (B sys_)) (Mat (C sys_)) (Mat (D sys_))
                      (dt sys_)
  | OneArg (NoAttributes obj) => tf2ss obj
  | FourArgs A B C D => StateSpace_init A B C D kw_dt
  | OtherCount _ => Raise (ValueError "1 or 4 args expected got {0}")
  end.

End Factories.

Arguments ss_single R TransferFunction : clear implicits.
Arguments ss_args R TransferFunction : clear implicits.
Arguments AModel {R TransferFunction} sys_.
Arguments NoAttributes {R TransferFunction} obj.
Arguments OneArg {R TransferFunction} x.
Arguments FourArgs {R TransferFunction} A B C D.
Arguments OtherCount {R TransferFunction} length.


(** ** Notions of the specification *)

Section SpecNotions.

Context {R : Type} `{Scalar R}.

(** The block matrix [[a, b], [0, c]] with [a] and [c] on the diagonal
    and the coupling block [b] in the upper right. *)
Definition block_upper (a b c : matrix R) : matrix R :=
  mk_matrix (nrows a + nrows c) (ncols a + ncols c)
    (fun i j =>
       if i <? nrows a
       then (if j <? ncols a then entry a i j else entry b i (j - ncols a))
       else (if j <? ncols a then szero else entry c (i - nrows a) (j - ncols a))).

(** The block-diagonal matrix of [a] and [c]. *)
Definition block_diag (a c : matrix R) : matrix R :=
  block_upper a (zeros (nrows a) (ncols c)) c.

(** The entrywise sum and difference of two matrices of one shape. *)
Definition sum_of (a b : matrix R) : matrix R :=
  mk_matrix (nrows a) (ncols a) (fun i j => sadd (entry a i j) (entry b i j)).
Definition difference_of (a b : matrix R) : matrix R :=
  mk_matrix (nrows a) (ncols a) (fun i j => ssub (entry a i j) (entry b i j)).

(** [g] is a two-sided inverse of the square matrix [f]. *)
Definition is_inverse (f g : matrix R) : Prop :=
  nrows g = nrows f /\ ncols g = ncols f /\
  mat_eq (mprod f g) (eye (nrows f)) /\ mat_eq (mprod g f) (eye (nrows f)).

Definition invertible (f : matrix R) : Prop := exists g, is_inverse f g.

(** Element-wise equality of two arrays under [==]. *)
Definition elementwise_equal (a b : matrix R) : Prop :=
  nrows a = nrows b /\ ncols a = ncols b /\
  forall i j, i < nrows a -> j < ncols a -> seqb (entry a i j) (entry b i j) = true.

(** What [np.linalg.inv] promises on the square matrix [f]: the inverse
    when there is one, [LinAlgError("Singular matrix")] when there is
    none. *)
Definition inv_contract `{Linalg R} (f : matrix R) : Prop :=
  match linalg_inv f with
  | Ok g => is_inverse f g
  | Raise e => SingularMatrix e /\ ~ invertible f
  end.

(** One of the four shape rules of the constructor is broken. *)
Definition shape_violation (a b c d : matrix R) : Prop :=
  nrows a <> ncols a \/ nrows b <> nrows a \/ ncols c <> nrows a \/
  shape d <> (nrows c, ncols b).

(** [np.linalg.inv] returns an array of the shape of its argument. *)
Definition inv_keeps_shape `{Linalg R} : Prop :=
  forall m g : matrix R, linalg_inv m = Ok g -> nrows g = nrows m /\ ncols g = ncols m.

(** [K * M] for a 1-D array [K] as long as [M] has rows. *)
Definition row_times (K : list R) (M : matrix R) : matrix R :=
  mk_matrix 1 (ncols M)
    (fun _ j => sum_upto (length K) (fun k => smul (nth k K szero) (entry M k j))).

(** The coefficients [np.poly(poles)[1:]] of a non-empty pole list. *)
Definition desired_coefficients (poles : list R) : list R :=
  tl (fold_left convolve_linear poles [sone]).

(** The element-wise sum of two 1-D arrays of one length. *)
Definition zip_add (p a : list R) : list R :=
  map (fun xy => sadd (fst xy) (snd xy)) (combine p a).

(** The steady-state gain D - C A^-1 B of a model whose A is invertible:
    the value of its transfer function at 0.  The series connection of
    two models has the product of their gains. *)
Definition dc_gain `{Linalg R} (s : StateSpace R) : result (matrix R) :=
  Ai <- linalg_inv (A s) ;;
  CA <- dot (C s) Ai ;;
  CAB <- dot CA (B s) ;;
  msub (D s) CAB.

(** A matrix with n rows has rank n: it has a right inverse.  A model is
    controllable when its controllability matrix has. *)
Definition full_row_rank (M : matrix R) : Prop :=
  exists G, mat_eq (mprod M G) (eye (nrows M)).

End SpecNotions.

(** ** Exact rational arithmetic, for the examples *)

Definition Q_scalar : Scalar Q := {|
  szero := 0%Q;
  sone := 1%Q;
  sadd := fun x y => Qred (x + y);
  ssub := fun x y => Qred (x - y);
  smul := fun x y => Qred (x * y);
  sopp := fun x => Qred (- x);
  seqb := Qeq_bool;
  of_int := inject_Z
|}.

#[export] Existing Instance Q_scalar.

(** The array with the given rows. *)
Definition rows (l : list (list Q)) : matrix Q :=
  mk_matrix (length l) (row_length l) (fun i j => nth j (nth i l []) 0%Q).

(** Determinant by expansion along the first row, and the inverse as the
    transposed cofactor matrix over the determinant. *)
Definition minor (f : nat -> nat -> Q) (r c : nat) : nat -> nat -> Q :=
  fun i j => f (if i <? r then i else S i) (if j <? c then j else S j).

Definition alternate (k : nat) (x : Q) : Q := if Nat.even k then x else Qred (- x).

Fixpoint det (n : nat) (f : nat -> nat -> Q) : Q :=
  match n with
  | O => 1%Q
  | S n' =>
      fold_left (fun acc j => Qred (acc + alternate j (f 0 j * det n' (minor f 0 j))))
                (seq 0 n) 0%Q
  end.

Definition exact_inv (m : matrix Q) : result (matrix Q) :=
  if nrows m =? ncols m then
    let d := det (nrows m) (entry m) in
    if Qeq_bool d 0 then Raise (LinAlgError "Singular matrix")
    else Ok (mk_matrix (nrows m) (ncols m)
               (fun i j => Qred (alternate (i + j) (det (nrows m - 1) (minor (entry m) j i)) / d)))
  else Raise (LinAlgError "Last 2 dimensions of the array must be square").

(** The Moore-Penrose inverse, which [np.linalg.pinv] computes through
    the singular value decomposition and which exists for every matrix.
    For a matrix M of rank r with the rank factorisation M = F G, where G
    holds the r non-zero rows of the reduced row echelon form of M and F
    the pivot columns of M, it is G^T (G G^T)^-1 (F^T F)^-1 F^T; for the
    zero matrix it is the zero matrix of the transposed shape. *)
Fixpoint find_pivot (c : nat) (rws : list (list Q))
  : option (list Q * list (list Q)) :=
  match rws with
  | [] => None
  | r :: rws' =>
      if Qeq_bool (nth c r 0%Q) 0 then
        match find_pivot c rws' with
        | Some (p, others) => Some (p, r :: others)
        | None => None
        end
      else Some (r, rws')
  end.

Definition clear_column (c : nat) (pivot r : list Q) : list Q :=
  map (fun xy => Qred (fst xy - nth c r 0%Q * snd xy)) (combine r pivot).

(** Gauss-Jordan elimination, column after column: the rows of the
    reduced row echelon form that are not zero, and the pivot columns. *)
Fixpoint echelon (cols : list nat) (done rest : list (list Q)) (pivots : list nat)
  : list (list Q) * list nat :=
  match cols with
  | [] => (done, pivots)
  | c :: cols' =>
      match find_pivot c rest with
      | None => echelon cols' done rest pivots
      | Some (p, others) =>
          let p' := map (fun x => Qred (x / nth c p 0%Q)) p in
          echelon cols' (map (clear_column c p') done ++ [p'])
                  (map (clear_column c p') others) (pivots ++ [c])
      end
  end.

Definition rank_factors (m : matrix Q) : matrix Q * matrix Q :=
  let (g, pivots) := echelon (seq 0 (ncols m)) [] (to_rows m) [] in
  (mk_matrix (nrows m) (length pivots) (fun i k => entry m i (nth k pivots 0)),
   mk_matrix (length g) (ncols m) (fun i j => nth j (nth i g []) 0%Q)).

Definition exact_pinv (m : matrix Q) : result (matrix Q) :=
  let (F, G) := rank_factors m in
  gg <- exact_inv (mprod G (transpose G)) ;;
  ff <- exact_inv (mprod (transpose F) F) ;;
  Ok (mprod (mprod (mprod (transpose G) gg) ff) (transpose F)).

(** The four conditions that characterise the Moore-Penrose inverse [g]
    of [m]: m g m = m, g m g = g, and m g and g m are symmetric. *)
Definition same_rows (a b : matrix Q) : bool :=
  shape_eqb (shape a) (shape b) &&
  forallb (fun i => forallb (fun j => Qeq_bool (entry a i j) (entry b i j))
                            (seq 0 (ncols a)))
          (seq 0 (nrows a)).

Definition penrose_conditions (m g : matrix Q) : bool :=
  same_rows (mprod (mprod m g) m) m &&
  same_rows (mprod (mprod g m) g) g &&
  same_rows (transpose (mprod m g)) (mprod m g) &&
  same_rows (transpose (mprod g m)) (mprod g m).

Definition Q_linalg : Linalg Q := {|
  linalg_inv := exact_inv;
  linalg_pinv := exact_pinv
|}.

#[export] Existing Instance Q_linalg.

(** The system of the repository's tests ([TestStateSpace.setUp]). *)
Definition test_A : matrix Q := rows [[0; 1]; [-4; -1 # 2]]%Q.
Definition test_B : matrix Q := rows [[0]; [1]]%Q.
Definition test_C : matrix Q := rows [[4; 0]]%Q.
Definition test_D : matrix Q := rows [[0]]%Q.

Definition test_ss (t : option Q) : StateSpace Q :=
  mk_StateSpace test_A test_B test_C test_D 1 1 t.

(** First-order systems [x' = a x + b u], [y = c x + d u]. *)
Definition siso (a b c d : Q) (t : option Q) : StateSpace Q :=
  mk_StateSpace (rows [[a]]) (rows [[b]]) (rows [[c]]) (rows [[d]]) 1 1 t.

(** A system with one state, one input and two outputs. *)
Definition one_in_two_out : StateSpace Q :=
  mk_StateSpace (rows [[1]]%Q) (rows [[1]]%Q) (rows [[1]; [1]]%Q)
                (rows [[0]; [0]]%Q) 1 2 None.

(** The examples have no transfer-function objects. *)
Definition no_tf2ss (tf : Empty_set) : result (StateSpace Q) :=
  match tf with end.

(** A model with one state, two inputs and one output, sampled. *)
Definition two_in_one_out (t : option Q) : StateSpace Q :=
  mk_StateSpace (rows [[1]]%Q) (rows [[1; 1]]%Q) (rows [[1]]%Q)
                (rows [[0; 0]]%Q) 2 1 t.

(** A compensator with one input and two outputs, of unit gain. *)
Definition two_output_gain : StateSpace Q :=
  mk_StateSpace (rows [[0]]%Q) (rows [[0]]%Q) (rows [[0]; [0]]%Q)
                (rows [[1]; [1]]%Q) 1 2 None.

(** A model with two states and two inputs of which the second state
    cannot be driven: the second rows of A and B are zero. *)
Definition uncontrollable_two_inputs : StateSpace Q :=
  mk_StateSpace (rows [[1; 1]; [0; 0]]%Q) (rows [[1; 1]; [0; 0]]%Q)
                (rows [[1; 0]]%Q) (rows [[0; 0]]%Q) 2 1 None.

(** A model with nothing in it, returned where a computation raised. *)
Definition no_model : StateSpace Q :=
  mk_StateSpace (zeros 0 0) (zeros 0 0) (zeros 0 0) (zeros 0 0) 0 0 None.

(** The continuous-time system [x' = -x] with [n] states. *)
Definition minus_identity (n : nat) : StateSpace Q :=
  mk_StateSpace (neg (eye n)) (zeros n 1) (zeros 1 n) (zeros 1 1) 1 1 None.

(** Half the identity matrix. *)
Definition half_identity (n : nat) : matrix Q :=
  mk_matrix n n (fun i j => if i =? j then (1 # 2)%Q else 0%Q).

(** The unknowns on and below the diagonal of the symbol matrix, row after
    row: n (n + 1) / 2 names. *)
Definition triangle_unknowns (n : nat) : list string :=
  flat_map (fun j => map (fun i => symbol_name j i) (seq 0 (S j))) (seq 0 n).

Fixpoint distinctb (l : list string) : bool :=
  match l with
  | [] => true
  | x :: l' => negb (existsb (String.eqb x) l') && distinctb l'
  end.

(** ** The claims of the specification that the code does not meet, as
    the specification words them *)

Section AsSpecified.

Context {R : Type} `{Scalar R}.

(** Section 4.2, Add: the operation fails with a shape mismatch exactly
    when the shapes of the D differ, and otherwise returns the parallel
    connection. *)
Definition parallel_as_specified (self other : StateSpace R)
           (outcome : result (StateSpace R)) : Prop :=
  ((exists e, outcome = Raise e /\ ShapeMismatch e)
   <-> shape (D self) <> shape (D other)) /\
  (shape (D self) = shape (D other) ->
   exists s, outcome = Ok s /\
             mat_eq (A s) (block_diag (A self) (A other)) /\
             mat_eq (B s) (vstack (B self) (B other)) /\
             mat_eq (C s) (hstack (C self) (C other)) /\
             mat_eq (D s) (sum_of (D self) (D other))).

(** Section 4.2, Multiply: the operation fails with a shape mismatch
    exactly when [self.inputs != other.outputs], and otherwise returns
    the model with the matrices A, B, C, D of the series connection. *)
Definition series_as_specified (self other : StateSpace R)
           (outcome : result (StateSpace R)) : Prop :=
  ((exists e, outcome = Raise e /\ ShapeMismatch e)
   <-> inputs self <> outputs other) /\
  (inputs self = outputs other ->
   exists s, outcome = Ok s /\
             mat_eq (A s) (block_upper (A self) (mprod (B self) (C other)) (A other)) /\
             mat_eq (B s) (vstack (B other) (mprod (B self) (D other))) /\
             mat_eq (C s) (hstack (mprod (D self) (C other)) (C self)) /\
             mat_eq (D s) (mprod (D self) (D other))).

(** Section 4.2, sampling-time reconciliation, for an add or a multiply
    with the given outcome. *)
Definition reconciliation_as_specified (self other : StateSpace R)
           (outcome : result (StateSpace R)) : Prop :=
  (forall t, dt self = None -> dt other = Some t ->
             forall s, outcome = Ok s -> dt s = Some t) /\
  (forall t, dt self = Some t -> dt other = None ->
             forall s, outcome = Ok s -> dt s = Some t) /\
  (forall t u, dt self = Some t -> dt other = Some u -> seqb t u = true ->
               forall s, outcome = Ok s -> dt s = Some t) /\
  (forall t u, dt self = Some t -> dt other = Some u -> seqb t u = false ->
               exists e, outcome = Raise e /\ IncompatibleSamplingTime e).

(** Section 4.5, pole placement: a dimension error whenever the number
    of poles is not the state order. *)
Definition pole_count_as_specified (self : StateSpace R) (poles : list R)
           (outcome : result (matrix R)) : Prop :=
  length poles <> nrows (A self) -> exists e, outcome = Raise e.

(** Section 4.3, feedback, for every model and every compensator: with
    F the matrix that the code computes, the operation fails with a
    singular feedback loop exactly when F is not invertible, and
    otherwise returns a model of order n_self + n_k. *)
Definition closure_as_specified (self k : StateSpace R) (sign : Z)
           (outcome : result (StateSpace R)) : Prop :=
  exists F, feedback_F self k sign = Ok F /\
            ((exists e, outcome = Raise e /\ SingularMatrix e) <-> ~ invertible F) /\
            (invertible F ->
             exists s, outcome = Ok s /\
                       nrows (A s) = nrows (A self) + nrows (A k)).

(** Section 4.5, pole placement: a failure whenever the system is not
    controllable. *)
Definition uncontrollable_as_specified (self : StateSpace R)
           (outcome : result (matrix R)) : Prop :=
  forall ctrb, controllability self = Ok ctrb -> ~ full_row_rank ctrb ->
               exists e, outcome = Raise e.

End AsSpecified.


(** ** Further notions, for the properties of the rest of the module *)

(** The laws of a commutative ring with unit, for the properties that
    rearrange matrix products. *)
Class RingLaws (R : Type) `{Scalar R} : Prop := {
  ring_add_assoc : forall x y z : R, sadd (sadd x y) z = sadd x (sadd y z);
  ring_add_comm : forall x y : R, sadd x y = sadd y x;
  ring_add_0_l : forall x : R, sadd szero x = x;
  ring_mul_assoc : forall x y z : R, smul (smul x y) z = smul x (smul y z);
  ring_mul_comm : forall x y : R, smul x y = smul y x;
  ring_mul_1_l : forall x : R, smul sone x = x;
  ring_mul_0_l : forall x : R, smul szero x = szero;
  ring_mul_add_distr_l : forall x y z : R,
      smul x (sadd y z) = sadd (smul x y) (smul x z)
}.

Arguments RingLaws R {H}.

(** The integers as scalars: the arithmetic of an array of integers whose
    entries stay inside the range of its dtype. *)
Definition Z_scalar : Scalar Z := {|
  szero := 0%Z;
  sone := 1%Z;
  sadd := Z.add;
  ssub := Z.sub;
  smul := Z.mul;
  sopp := Z.opp;
  seqb := Z.eqb;
  of_int := fun z => z
|}.

Definition int_rows (l : list (list Z)) : matrix Z :=
  mk_matrix (length l) (row_length l) (fun i j => nth j (nth i l []) 0%Z).

(** The test system with integer entries, and a model with two states,
    two inputs and one output. *)
Definition int_ss : StateSpace Z :=
  mk_StateSpace (int_rows [[0; 1]; [-4; -1]]%Z) (int_rows [[0]; [1]]%Z)
                (int_rows [[4; 0]]%Z) (int_rows [[0]]%Z) 1 1 None.

Definition int_two_inputs : StateSpace Z :=
  mk_StateSpace (int_rows [[1; 2]; [3; 4]]%Z) (int_rows [[1; 0]; [0; 1]]%Z)
                (int_rows [[5; 6]]%Z) (int_rows [[7; 8]]%Z) 2 1 None.

(** A stand-in for the solver in the examples: it tries one candidate
    answer and returns it when every equation vanishes under it, and
    returns no solution otherwise. *)
Definition is_zero_Q (q : Q) : bool :=
  (Qnum q =? 0)%Z && (Qden q =? 1)%positive.

Definition all_zerob (Z : matrix Q) : bool :=
  forallb (fun i => forallb (fun j => is_zero_Q (entry Z i j)) (seq 0 (ncols Z)))
          (seq 0 (nrows Z)).

Definition check_candidate (candidate : list (string * Q))
           (eq : (string -> Q) -> result (matrix Q)) (unknowns : list string)
  : list (string * Q) :=
  match eq (assignment candidate) with
  | Ok Z => if all_zerob Z then candidate else []
  | Raise _ => []
  end.

(** The test system with another output equation and a sampling time. *)
Definition test_ss_other_output : StateSpace Q :=
  mk_StateSpace test_A test_B (rows [[1; 1]]%Q) (rows [[2]]%Q) 1 1 (Some 1%Q).



(** * Properties *)

(** ** Generic lemmas on the error monad and on shapes *)

Lemma bind_Ok_inv {X Y : Type} (r : result X) (f : X -> result Y) (y : Y) :
  bind r f = Ok y -> exists x, r = Ok x /\ f x = Ok y.
Proof.
  destruct r as [x | e]; simpl; intros Hb.
  - exists x. split; [reflexivity | exact Hb].
  - discriminate Hb.
Qed.

Lemma Ok_value_or {X : Type} (r : result X) (d : X) :
  is_Ok r = true -> r = Ok (value_or r d).
Proof. destruct r; simpl; [reflexivity | discriminate]. Qed.

Lemma shape_eqb_eq (s t : nat * nat) : shape_eqb s t = true <-> s = t.
Proof.
  destruct s as [a b], t as [c d]. unfold shape_eqb. simpl.
  rewrite andb_true_iff, !Nat.eqb_eq. split.
  - intros [-> ->]. reflexivity.
  - intros Heq. injection Heq as -> ->. split; reflexivity.
Qed.

Lemma shape_eqb_neq (s t : nat * nat) : shape_eqb s t = false <-> s <> t.
Proof.
  rewrite <- shape_eqb_eq. destruct (shape_eqb s t); split; intros Hs.
  - discriminate Hs.
  - exfalso. apply Hs. reflexivity.
  - discriminate.
  - reflexivity.
Qed.

Lemma shape_eq {R : Type} (a b : matrix R) :
  shape a = shape b <-> nrows a = nrows b /\ ncols a = ncols b.
Proof.
  unfold shape. split.
  - intros Heq. injection Heq as Hr Hc. split; assumption.
  - intros [-> ->]. reflexivity.
Qed.

Lemma mat_eq_refl {R : Type} (a : matrix R) : mat_eq a a.
Proof. repeat split. Qed.

Lemma mat_eq_sym {R : Type} (a b : matrix R) : mat_eq a b -> mat_eq b a.
Proof.
  intros (Hr & Hc & He). repeat split; try congruence.
  intros i j Hi Hj. symmetry. apply He; congruence.
Qed.

Lemma mat_eq_trans {R : Type} (a b c : matrix R) :
  mat_eq a b -> mat_eq b c -> mat_eq a c.
Proof.
  intros (Hr & Hc & He) (Hr' & Hc' & He'). repeat split; try congruence.
  intros i j Hi Hj. rewrite He by assumption. apply He'; congruence.
Qed.

(** Two arrays with the same rows are equal as values. *)
Lemma mat_eq_of_rows {R : Type} (a b : matrix R) :
  nrows a = nrows b -> ncols a = ncols b -> to_rows a = to_rows b -> mat_eq a b.
Proof.
  intros Hr Hc Hrows. repeat split; try assumption.
  intros i j Hi Hj. unfold to_rows in Hrows. rewrite <- Hr, <- Hc in Hrows.
  assert (Hrow : map (entry a i) (seq 0 (ncols a)) = map (entry b i) (seq 0 (ncols a))).
  { pose proof (f_equal (fun l => nth i l []) Hrows) as Hn. simpl in Hn.
    rewrite !(nth_indep _ [] (map (entry a 0) (seq 0 (ncols a)))) in Hn
      by (rewrite length_map, length_seq; exact Hi).
    rewrite (map_nth (fun i => map (entry a i) (seq 0 (ncols a)))) in Hn.
    rewrite (nth_indep _ _ (map (entry b 0) (seq 0 (ncols a)))) in Hn
      by (rewrite length_map, length_seq; exact Hi).
    rewrite (map_nth (fun i => map (entry b i) (seq 0 (ncols a)))) in Hn.
    rewrite seq_nth in Hn by exact Hi. exact Hn. }
  pose proof (f_equal (fun l => nth j l (entry a i 0)) Hrow) as Hn. simpl in Hn.
  rewrite map_nth in Hn.
  rewrite (nth_indep _ _ (entry b i 0)) in Hn by (rewrite length_map, length_seq; exact Hj).
  rewrite map_nth in Hn. rewrite seq_nth in Hn by exact Hj. exact Hn.
Qed.

(** Case analysis on every comparison of indices in the goal. *)
Ltac compare_indices :=
  repeat match goal with
         | |- context [Nat.ltb ?a ?b] => destruct (Nat.ltb_spec a b)
         | |- context [Nat.leb ?a ?b] => destruct (Nat.leb_spec a b)
         end;
  simpl; try (exfalso; lia).

Section Properties.

Context {R : Type} `{Scalar R} `{Linalg R}.
Variable TransferFunction : Type.
Variable tf2ss : TransferFunction -> result (StateSpace R).

(** *** The constructor *)

Lemma StateSpace_init_Ok (a b c d : matrix R) (t : option R) :
  nrows a = ncols a -> nrows b = nrows a -> ncols c = nrows a ->
  nrows d = nrows c -> ncols d = ncols b ->
  StateSpace_init (Mat a) (Mat b) (Mat c) (Mat d) t
  = Ok (mk_StateSpace a b c d (ncols b) (nrows c) t).
Proof.
  intros Ha Hb Hc Hd1 Hd2. unfold StateSpace_init, shape_eqb, shape. simpl.
  rewrite (proj2 (Nat.eqb_eq _ _) Ha), (proj2 (Nat.eqb_eq _ _) Hb),
    (proj2 (Nat.eqb_eq _ _) Hc), (proj2 (Nat.eqb_eq _ _) Hd1),
    (proj2 (Nat.eqb_eq _ _) Hd2).
  reflexivity.
Qed.

Lemma StateSpace_init_constructed (a b c d : array_like R) (t : option R)
      (s : StateSpace R) :
  StateSpace_init a b c d t = Ok s -> constructed s /\ dt s = t.
Proof.
  unfold StateSpace_init. intros Hi.
  apply bind_Ok_inv in Hi as (a' & _ & Hi).
  apply bind_Ok_inv in Hi as (b' & _ & Hi).
  apply bind_Ok_inv in Hi as (c' & _ & Hi).
  apply bind_Ok_inv in Hi as (d' & _ & Hi).
  destruct (nrows a' =? ncols a') eqn:Ha; simpl in Hi; [| discriminate].
  destruct (nrows b' =? nrows a') eqn:Hb; simpl in Hi; [| discriminate].
  destruct (ncols c' =? nrows a') eqn:Hc; simpl in Hi; [| discriminate].
  destruct (shape_eqb (shape d') (nrows c', ncols b')) eqn:Hd; simpl in Hi;
    [| discriminate].
  injection Hi as <-. apply Nat.eqb_eq in Ha, Hb, Hc.
  apply shape_eqb_eq in Hd. injection Hd as Hd1 Hd2.
  unfold constructed. simpl. repeat split; assumption.
Qed.

(** C1.  For all matrices A, B, C, D the constructor fails with a
    shape-mismatch [ValueError] whenever A is not square, B does not have
    as many rows as A, C does not have as many columns as A, or the shape
    of D is not (rows of C, columns of B); when none of the four rules is
    broken it succeeds, and the model holds exactly the four matrices
    given (and the sampling time given). *)
Theorem StateSpace_init_shape_invariant (a b c d : matrix R) (t : option R) :
  (shape_violation a b c d ->
   exists e, StateSpace_init (Mat a) (Mat b) (Mat c) (Mat d) t = Raise e /\
             ShapeMismatch e) /\
  (~ shape_violation a b c d ->
   exists s, StateSpace_init (Mat a) (Mat b) (Mat c) (Mat d) t = Ok s /\
             A s = a /\ B s = b /\ C s = c /\ D s = d /\ dt s = t /\
             inputs s = ncols b /\ outputs s = nrows c).
Proof.
  unfold shape_violation, StateSpace_init. simpl.
  destruct (nrows a =? ncols a) eqn:Ha; simpl.
  2: { apply Nat.eqb_neq in Ha. split.
       - intros _. eexists. split; [reflexivity |]. simpl. tauto.
       - intros Hn. exfalso. apply Hn. left. exact Ha. }
  destruct (nrows b =? nrows a) eqn:Hb; simpl.
  2: { apply Nat.eqb_neq in Hb. split.
       - intros _. eexists. split; [reflexivity |]. simpl. tauto.
       - intros Hn. exfalso. apply Hn. right. left. exact Hb. }
  destruct (ncols c =? nrows a) eqn:Hc; simpl.
  2: { apply Nat.eqb_neq in Hc. split.
       - intros _. eexists. split; [reflexivity |]. simpl. tauto.
       - intros Hn. exfalso. apply Hn. right. right. left. exact Hc. }
  destruct (shape_eqb (shape d) (nrows c, ncols b)) eqn:Hd; simpl.
  2: { apply shape_eqb_neq in Hd. split.
       - intros _. eexists. split; [reflexivity |]. simpl. tauto.
       - intros Hn. exfalso. apply Hn. right. right. right. exact Hd. }
  apply Nat.eqb_eq in Ha, Hb, Hc. apply shape_eqb_eq in Hd. split.
  - intros [Hv | [Hv | [Hv | Hv]]]; contradiction.
  - intros _. eexists. split; [reflexivity |]. simpl. repeat split.
Qed.

(** *** Sampling times *)

Lemma sampling_time_left_unset (msg : string) (self other : StateSpace R) (t : R) :
  dt self = None -> dt other = Some t ->
  sampling_time msg self other = Ok (Some t).
Proof. intros Hs Ho. unfold sampling_time. rewrite Hs, Ho. reflexivity. Qed.

Lemma sampling_time_right_unset (msg : string) (self other : StateSpace R) (t : R) :
  dt self = Some t -> dt other = None ->
  sampling_time msg self other = Ok (Some t).
Proof. intros Hs Ho. unfold sampling_time. rewrite Hs, Ho. reflexivity. Qed.

Lemma sampling_time_both_unset (msg : string) (self other : StateSpace R) :
  dt self = None -> dt other = None ->
  sampling_time msg self other = Ok None.
Proof. intros Hs Ho. unfold sampling_time. rewrite Hs, Ho. reflexivity. Qed.

Lemma sampling_time_equal (msg : string) (self other : StateSpace R) (t u : R) :
  dt self = Some t -> dt other = Some u -> seqb t u = true ->
  sampling_time msg self other = Ok (Some t).
Proof.
  intros Hs Ho He. unfold sampling_time. rewrite Hs, Ho. simpl.
  rewrite He. reflexivity.
Qed.

Lemma sampling_time_differ (msg : string) (self other : StateSpace R) (t u : R) :
  dt self = Some t -> dt other = Some u -> seqb t u = false ->
  sampling_time msg self other = Raise (ValueError msg).
Proof.
  intros Hs Ho He. unfold sampling_time. rewrite Hs, Ho. simpl.
  rewrite He. reflexivity.
Qed.

Lemma sampling_time_Raise (msg : string) (self other : StateSpace R) (e : exn) :
  sampling_time msg self other = Raise e -> e = ValueError msg.
Proof.
  unfold sampling_time.
  destruct (is_None (dt self) && negb (is_None (dt other))); [discriminate |].
  destruct (negb (is_None (dt self)) && is_None (dt other)
            || py_eq_dt (dt self) (dt other)); [discriminate |].
  intros He. injection He as <-. reflexivity.
Qed.

(** *** Slice assignment and broadcasting on operands that fit *)

Lemma bidx_in_range (d i : nat) : i < d -> bidx d i = i.
Proof.
  unfold bidx. destruct (d =? 1) eqn:Hd; [| reflexivity].
  apply Nat.eqb_eq in Hd. lia.
Qed.

Lemma setitem_fits (a : matrix R) (r0 : nat) (r1 : option nat) (c0 : nat)
      (c1 : option nat) (m : matrix R) :
  nrows m = slice_len r0 r1 (nrows a) ->
  ncols m = slice_len c0 c1 (ncols a) ->
  setitem a r0 r1 c0 c1 m
  = Ok (mk_matrix (nrows a) (ncols a)
          (fun i j =>
             if (r0 <=? i) && (i <? r0 + nrows m) && (c0 <=? j) && (j <? c0 + ncols m)
             then entry m (bidx (nrows m) (i - r0)) (bidx (ncols m) (j - c0))
             else entry a i j)).
Proof.
  intros Hr Hc. unfold setitem. rewrite <- Hr, <- Hc, !Nat.eqb_refl.
  reflexivity.
Qed.

Lemma broadcast2_same_shape (f : R -> R -> R) (a b : matrix R) :
  nrows a = nrows b -> ncols a = ncols b ->
  exists m, broadcast2 f a b = Ok m /\
            mat_eq m (mk_matrix (nrows a) (ncols a)
                        (fun i j => f (entry a i j) (entry b i j))).
Proof.
  intros Hr Hc. unfold broadcast2, broadcastable, bdim.
  rewrite <- Hr, <- Hc, !Nat.eqb_refl. simpl.
  eexists. split; [reflexivity |]. unfold mat_eq. simpl.
  split; [destruct (nrows a =? 1) eqn:E; [apply Nat.eqb_eq in E |]; congruence |].
  split; [destruct (ncols a =? 1) eqn:E; [apply Nat.eqb_eq in E |]; congruence |].
  intros i j Hi Hj.
  assert (Hi' : i < nrows a) by (destruct (nrows a =? 1); lia).
  assert (Hj' : j < ncols a) by (destruct (ncols a =? 1); lia).
  rewrite !bidx_in_range by assumption. reflexivity.
Qed.

Lemma dot_aligned (a b : matrix R) :
  ncols a = nrows b -> dot a b = Ok (mprod a b).
Proof. intros Hab. unfold dot. rewrite Hab, Nat.eqb_refl. reflexivity. Qed.

Lemma dot_not_aligned (a b : matrix R) :
  ncols a <> nrows b -> dot a b = Raise (ValueError "shapes not aligned").
Proof.
  intros Hab. unfold dot. apply Nat.eqb_neq in Hab. rewrite Hab. reflexivity.
Qed.

Lemma concatenate_rows (a b : matrix R) :
  ncols a = ncols b -> concatenate 0 a b = Ok (vstack a b).
Proof. intros Hab. simpl. rewrite Hab, Nat.eqb_refl. reflexivity. Qed.

Lemma concatenate_columns (a b : matrix R) :
  nrows a = nrows b -> concatenate 1 a b = Ok (hstack a b).
Proof. intros Hab. simpl. rewrite Hab, Nat.eqb_refl. reflexivity. Qed.

(** The array [A] that [__add__] and [__mul__] assemble from
    [np.zeros] by slice assignments is the block matrix. *)
Lemma assembled_block_upper (a b c : matrix R) :
  nrows a = ncols a -> nrows c = ncols c ->
  nrows b = nrows a -> ncols b = ncols c ->
  exists a1 a2 a3,
    setitem (zeros (nrows a + nrows c) (ncols a + ncols c))
            0 (Some (nrows a)) 0 (Some (ncols a)) a = Ok a1 /\
    setitem a1 (nrows a) None (ncols a) None c = Ok a2 /\
    setitem a2 0 (Some (nrows a)) (nrows a) None b = Ok a3 /\
    mat_eq a2 (block_diag a c) /\
    mat_eq a3 (block_upper a b c).
Proof.
  intros Ha Hc Hb1 Hb2.
  eexists. eexists. eexists.
  split; [apply setitem_fits; unfold slice_len; simpl; lia |].
  split; [apply setitem_fits; unfold slice_len; simpl; lia |].
  split; [apply setitem_fits; unfold slice_len; simpl; lia |].
  unfold mat_eq, block_diag, block_upper. simpl.
  split; (split; [reflexivity |]; split; [reflexivity |]);
    intros i j Hi Hj; compare_indices;
    rewrite ?Nat.sub_0_r, ?bidx_in_range by lia;
    try reflexivity; f_equal; lia.
Qed.

(** *** Parallel connection: [__add__] *)

(** What [__add__] does on two models whose D have one shape, in terms
    of the outcome of the sampling-time block. *)
Lemma StateSpace_add_same_shape (self other : StateSpace R) :
  constructed self -> constructed other ->
  shape (D self) = shape (D other) ->
  match sampling_time "different sampling times" self other with
  | Raise e => StateSpace_add self other = Raise e
  | Ok t =>
      exists s, StateSpace_add self other = Ok s /\
                mat_eq (A s) (block_diag (A self) (A other)) /\
                B s = vstack (B self) (B other) /\
                C s = hstack (C self) (C other) /\
                mat_eq (D s) (sum_of (D self) (D other)) /\
                dt s = t /\ constructed s
  end.
Proof.
  intros (Ha1 & Hb1 & Hc1 & Hd1 & Hd1' & Hi1 & Ho1)
         (Ha2 & Hb2 & Hc2 & Hd2 & Hd2' & Hi2 & Ho2) Hshape.
  unfold StateSpace_add. rewrite (proj2 (shape_eqb_eq _ _) Hshape). cbn [negb].
  apply shape_eq in Hshape as [Hr Hc].
  destruct (sampling_time "different sampling times" self other) as [t | e];
    cbn [bind]; [| reflexivity].
  destruct (@assembled_block_upper (A self)
              (zeros (nrows (A self)) (ncols (A other))) (A other))
    as (a1 & a2 & a3 & E1 & E2 & _ & Hdiag & _);
    try assumption; try reflexivity.
  rewrite E1. cbn [bind]. rewrite E2. cbn [bind].
  rewrite concatenate_rows by congruence. cbn [bind].
  rewrite concatenate_columns by congruence. cbn [bind].
  destruct (broadcast2_same_shape sadd (D self) (D other) Hr Hc)
    as (d' & Ed & Hd).
  unfold madd. rewrite Ed. cbn [bind].
  destruct Hdiag as (Hdr & Hdc & Hde). destruct Hd as (Hsr & Hsc & Hse).
  simpl in Hdr, Hdc, Hsr, Hsc.
  rewrite StateSpace_init_Ok; simpl; try lia.
  eexists. split; [reflexivity |]. simpl.
  split; [repeat split; assumption |].
  split; [reflexivity |]. split; [reflexivity |].
  split; [repeat split; assumption |].
  split; [reflexivity |].
  unfold constructed. simpl. repeat split; lia.
Qed.

(** C4, as the code has it.  For two models, [self + other] fails with a
    shape-mismatch [ValueError] exactly when the shapes of [self.D] and
    [other.D] differ.  When the shapes agree and the sampling times
    cannot be reconciled it fails with the error of the sampling-time
    block; when they are reconciled to [t] it returns a new model whose
    A is the block-diagonal matrix of [self.A] and [other.A] (of size
    n1 + n2), whose B is [self.B] stacked over [other.B], whose C is
    [self.C] followed by [other.C], whose D is [self.D + other.D], and
    whose sampling time is [t]. *)
Theorem StateSpace_add_parallel (self other : StateSpace R) :
  constructed self -> constructed other ->
  ((exists e, StateSpace_add self other = Raise e /\ ShapeMismatch e)
   <-> shape (D self) <> shape (D other)) /\
  (shape (D self) = shape (D other) ->
   (forall e, sampling_time "different sampling times" self other = Raise e ->
              StateSpace_add self other = Raise e /\ IncompatibleSamplingTime e) /\
   (forall t, sampling_time "different sampling times" self other = Ok t ->
              exists s, StateSpace_add self other = Ok s /\
                        mat_eq (A s) (block_diag (A self) (A other)) /\
                        nrows (A s) = nrows (A self) + nrows (A other) /\
                        B s = vstack (B self) (B other) /\
                        C s = hstack (C self) (C other) /\
                        mat_eq (D s) (sum_of (D self) (D other)) /\
                        dt s = t)).
Proof.
  intros Hself Hother. split.
  - split.
    + intros (e & He & Hm).
      destruct (shape_eqb (shape (D self)) (shape (D other))) eqn:Hs;
        [| apply shape_eqb_neq; exact Hs].
      exfalso. apply shape_eqb_eq in Hs.
      pose proof (StateSpace_add_same_shape Hself Hother Hs) as Hadd.
      destruct (sampling_time "different sampling times" self other) as [t | e'] eqn:Et.
      * destruct Hadd as (s & Hadd & _). congruence.
      * apply sampling_time_Raise in Et. subst e'.
        rewrite Hadd in He. injection He as <-.
        simpl in Hm. intuition discriminate.
    + intros Hs. apply shape_eqb_neq in Hs. unfold StateSpace_add.
      rewrite Hs. simpl. eexists. split; [reflexivity |]. simpl. tauto.
  - intros Hs. pose proof (StateSpace_add_same_shape Hself Hother Hs) as Hadd.
    split.
    + intros e He. rewrite He in Hadd. split; [exact Hadd |].
      apply sampling_time_Raise in He. left. exact He.
    + intros t Ht. rewrite Ht in Hadd.
      destruct Hadd as (s & Hadd & HA & HB & HC & HD & Hdt & _).
      exists s. repeat split; try assumption; try apply HA; try apply HD.
Qed.

(** *** Series connection: [__mul__] *)

(** The four ways [self * other] ends on two models, in the order in
    which the code decides them. *)
Lemma StateSpace_mul_cases (self other : StateSpace R) :
  constructed self -> constructed other ->
  (outputs self <> inputs other ->
   StateSpace_mul tf2ss self (Model other)
   = Raise (ValueError "outputs are not equal to inputs")) /\
  (outputs self = inputs other ->
   match sampling_time "Sampling time is different. one is {0}, the other is {1}"
                       self other with
   | Raise e => StateSpace_mul tf2ss self (Model other) = Raise e
   | Ok t =>
       (inputs self <> outputs other ->
        StateSpace_mul tf2ss self (Model other)
        = Raise (ValueError "shapes not aligned")) /\
       (inputs self = outputs other ->
        exists a,
          mat_eq a (block_upper (A self) (mprod (B self) (C other)) (A other)) /\
          StateSpace_mul tf2ss self (Model other)
          = Ok (mk_StateSpace
                  a
                  (transpose (hstack (mprod (D self) (C other)) (C self)))
                  (transpose (vstack (B other) (mprod (B self) (D other))))
                  (mprod (D self) (D other))
                  (nrows (D self)) (ncols (B other)) t))
   end).
Proof.
  intros (Ha1 & Hb1 & Hc1 & Hd1 & Hd1' & Hi1 & Ho1)
         (Ha2 & Hb2 & Hc2 & Hd2 & Hd2' & Hi2 & Ho2).
  unfold StateSpace_mul. cbn [bind]. split.
  - intros Hne. apply Nat.eqb_neq in Hne. rewrite Hne. reflexivity.
  - intros Heq. rewrite Heq, Nat.eqb_refl. cbn [negb].
    destruct (sampling_time _ self other) as [t | e]; cbn [bind]; [| reflexivity].
    destruct (@assembled_block_upper (A self)
                (mprod (B self) (C other)) (A other))
      as (a1 & a2 & a3 & E1 & E2 & E3 & _ & Hup);
      try assumption; try (simpl; lia).
    rewrite E1. cbn [bind]. rewrite E2. cbn [bind]. split.
    + intros Hne. rewrite dot_not_aligned by lia. reflexivity.
    + intros Hio. rewrite dot_aligned by lia. cbn [bind]. rewrite E3. cbn [bind].
      rewrite dot_aligned by lia. cbn [bind].
      rewrite concatenate_rows by (simpl; lia). cbn [bind].
      rewrite dot_aligned by lia. cbn [bind].
      rewrite concatenate_columns by (simpl; lia). cbn [bind].
      rewrite dot_aligned by lia. cbn [bind].
      destruct Hup as (Hur & Huc & Hue). simpl in Hur, Huc.
      rewrite StateSpace_init_Ok; simpl; try lia.
      exists a3. split; [repeat split; assumption |].
      reflexivity.
Qed.


(** What [__mul__] does on two models.  [self * other] fails with a
    shape-mismatch [ValueError] exactly when [self.outputs] differs from
    [other.inputs] (the guard of the code) or, the sampling times being
    reconciled, [self.inputs] differs from [other.outputs] (the products
    are then undefined).  When both counts agree and the sampling times
    are reconciled to [t], the code computes
    A = block-diagonal(self.A, other.A) with self.B * other.C in the
    upper right, B = other.B over self.B * other.D,
    C = self.D * other.C beside self.C and D = self.D * other.D, and
    returns the model constructed from (A, transpose of C, transpose of
    B, D) with sampling time [t]. *)
Theorem StateSpace_mul_series (self other : StateSpace R) :
  constructed self -> constructed other ->
  ((exists e, StateSpace_mul tf2ss self (Model other) = Raise e /\ ShapeMismatch e)
   <-> outputs self <> inputs other \/
       ((exists t, sampling_time "Sampling time is different. one is {0}, the other is {1}"
                                 self other = Ok t) /\
        inputs self <> outputs other)) /\
  (forall t,
      sampling_time "Sampling time is different. one is {0}, the other is {1}"
                    self other = Ok t ->
      outputs self = inputs other -> inputs self = outputs other ->
      exists s, StateSpace_mul tf2ss self (Model other) = Ok s /\
                mat_eq (A s) (block_upper (A self) (mprod (B self) (C other)) (A other)) /\
                B s = transpose (hstack (mprod (D self) (C other)) (C self)) /\
                C s = transpose (vstack (B other) (mprod (B self) (D other))) /\
                D s = mprod (D self) (D other) /\
                dt s = t).
Proof.
  intros Hself Hother.
  destruct (StateSpace_mul_cases Hself Hother) as [Hguard Hrest]. split.
  - split.
    + intros (e & He & Hm).
      destruct (Nat.eq_dec (outputs self) (inputs other)) as [Hoi | Hoi];
        [| left; exact Hoi].
      right. specialize (Hrest Hoi).
      destruct (sampling_time _ self other) as [t | e'] eqn:Et.
      * split; [exists t; reflexivity |].
        intros Hio. destruct Hrest as [_ Hok].
        destruct (Hok Hio) as (a & _ & Hmul). congruence.
      * exfalso. apply sampling_time_Raise in Et. subst e'.
        rewrite Hrest in He. injection He as <-.
        simpl in Hm. intuition discriminate.
    + intros [Hoi | [(t & Et) Hio]].
      * rewrite (Hguard Hoi). eexists. split; [reflexivity |]. simpl. tauto.
      * destruct (Nat.eq_dec (outputs self) (inputs other)) as [Hoi | Hoi].
        -- specialize (Hrest Hoi). rewrite Et in Hrest.
           destruct Hrest as [Hbad _]. rewrite (Hbad Hio).
           eexists. split; [reflexivity |]. simpl. tauto.
        -- rewrite (Hguard Hoi). eexists. split; [reflexivity |]. simpl. tauto.
  - intros t Et Hoi Hio. specialize (Hrest Hoi). rewrite Et in Hrest.
    destruct Hrest as [_ Hok]. destruct (Hok Hio) as (a & Ha & Hmul).
    eexists. split; [exact Hmul |]. simpl. repeat split; apply Ha.
Qed.

(** C8.  On a plain number as right operand, [self * g] does not reach
    the series connection: the conversion [_convert_to_ss] raises a
    [TypeError] while it builds the arguments of the constructor, since
    [np.zeros(outputs, 1)] passes 1 where numpy expects a data type. *)
Theorem StateSpace_mul_number_raises (self : StateSpace R) (g : R) :
  StateSpace_mul tf2ss self (Object (Number g))
  = Raise (TypeError "Cannot interpret '1' as a data type").
Proof. reflexivity. Qed.

(** *** Sampling times of sums and products *)

(** C5, as the code has it.  For an add of two models whose D have one
    shape, and for a multiply of two models with [self.outputs ==
    other.inputs] and [self.inputs == other.outputs]: if exactly one
    operand has no sampling time the result carries the sampling time of
    the other; if both have one and they are equal the result carries
    it.  If both are set and differ, the add fails with the
    sampling-time error when the D have one shape, and the multiply
    fails with it when [self.outputs == other.inputs]. *)
Theorem sampling_time_reconciliation (self other : StateSpace R) :
  constructed self -> constructed other ->
  (shape (D self) = shape (D other) ->
   (forall t, dt self = None -> dt other = Some t ->
              exists s, StateSpace_add self other = Ok s /\ dt s = Some t) /\
   (forall t, dt self = Some t -> dt other = None ->
              exists s, StateSpace_add self other = Ok s /\ dt s = Some t) /\
   (forall t u, dt self = Some t -> dt other = Some u -> seqb t u = true ->
                exists s, StateSpace_add self other = Ok s /\ dt s = Some t) /\
   (forall t u, dt self = Some t -> dt other = Some u -> seqb t u = false ->
                exists e, StateSpace_add self other = Raise e /\
                          IncompatibleSamplingTime e)) /\
  (outputs self = inputs other ->
   (inputs self = outputs other ->
    (forall t, dt self = None -> dt other = Some t ->
               exists s, StateSpace_mul tf2ss self (Model other) = Ok s /\
                         dt s = Some t) /\
    (forall t, dt self = Some t -> dt other = None ->
               exists s, StateSpace_mul tf2ss self (Model other) = Ok s /\
                         dt s = Some t) /\
    (forall t u, dt self = Some t -> dt other = Some u -> seqb t u = true ->
                 exists s, StateSpace_mul tf2ss self (Model other) = Ok s /\
                           dt s = Some t)) /\
   (forall t u, dt self = Some t -> dt other = Some u -> seqb t u = false ->
                exists e, StateSpace_mul tf2ss self (Model other) = Raise e /\
                          IncompatibleSamplingTime e)).
Proof.
  intros Hself Hother. split.
  - intros Hs. pose proof (StateSpace_add_same_shape Hself Hother Hs) as Hadd.
    repeat split.
    + intros t H1 H2. rewrite (sampling_time_left_unset _ _ _ H1 H2) in Hadd.
      destruct Hadd as (s & Hadd & _ & _ & _ & _ & Hdt & _). eauto.
    + intros t H1 H2. rewrite (sampling_time_right_unset _ _ _ H1 H2) in Hadd.
      destruct Hadd as (s & Hadd & _ & _ & _ & _ & Hdt & _). eauto.
    + intros t u H1 H2 He. rewrite (sampling_time_equal _ _ _ H1 H2 He) in Hadd.
      destruct Hadd as (s & Hadd & _ & _ & _ & _ & Hdt & _). eauto.
    + intros t u H1 H2 He. rewrite (sampling_time_differ _ _ _ H1 H2 He) in Hadd.
      eexists. split; [exact Hadd |]. left. reflexivity.
  - intros Hoi. destruct (StateSpace_mul_cases Hself Hother) as [_ Hrest].
    specialize (Hrest Hoi). split.
    + intros Hio. repeat split.
      * intros t H1 H2. rewrite (sampling_time_left_unset _ _ _ H1 H2) in Hrest.
        destruct Hrest as [_ Hok]. destruct (Hok Hio) as (a & _ & Hmul).
        eexists. split; [exact Hmul | reflexivity].
      * intros t H1 H2. rewrite (sampling_time_right_unset _ _ _ H1 H2) in Hrest.
        destruct Hrest as [_ Hok]. destruct (Hok Hio) as (a & _ & Hmul).
        eexists. split; [exact Hmul | reflexivity].
      * intros t u H1 H2 He. rewrite (sampling_time_equal _ _ _ H1 H2 He) in Hrest.
        destruct Hrest as [_ Hok]. destruct (Hok Hio) as (a & _ & Hmul).
        eexists. split; [exact Hmul | reflexivity].
    + intros t u H1 H2 He. rewrite (sampling_time_differ _ _ _ H1 H2 He) in Hrest.
      eexists. split; [exact Hrest |]. right. reflexivity.
Qed.

(** *** Equality *)

Lemma array_equal_elementwise (a b : matrix R) :
  array_equal a b = true <-> elementwise_equal a b.
Proof.
  unfold array_equal, elementwise_equal, shape_eqb, shape. simpl.
  rewrite !andb_true_iff, !Nat.eqb_eq, forallb_forall. split.
  - intros [[Hr Hc] Hall]. repeat split; try assumption.
    intros i j Hi Hj.
    assert (Hrow := Hall i (proj2 (in_seq _ _ _) (conj (Nat.le_0_l i) Hi))).
    rewrite forallb_forall in Hrow. apply Hrow. apply in_seq. lia.
  - intros (Hr & Hc & Hall). repeat split; try assumption.
    intros i Hi. apply in_seq in Hi. apply forallb_forall.
    intros j Hj. apply in_seq in Hj. apply Hall; lia.
Qed.



(** *** Feedback *)

Lemma madd_same_shape (a b : matrix R) :
  nrows a = nrows b -> ncols a = ncols b ->
  exists m, madd a b = Ok m /\ nrows m = nrows a /\ ncols m = ncols a.
Proof.
  intros Hr Hc.
  destruct (broadcast2_same_shape sadd a b Hr Hc) as (m & Em & Hm1 & Hm2 & _).
  exists m. repeat split; assumption.
Qed.

Lemma sum_upto_scale (L : ScalarLaws R) (x : R) (f g : nat -> R) (n : nat) :
  sum_upto n (fun k => smul (smul x (f k)) (g k))
  = smul x (sum_upto n (fun k => smul (f k) (g k))).
Proof.
  induction n as [| n IH]; simpl.
  - symmetry. apply smul_szero_r.
  - rewrite IH, smul_assoc, smul_sadd_distr_l. reflexivity.
Qed.

(** The matrix F of the code is I - sign * (k.D * self.D). *)
Lemma feedback_F_value (self k : StateSpace R) (sign : Z) :
  constructed self -> constructed k ->
  inputs k = outputs self -> outputs k = inputs self ->
  exists F, feedback_F self k sign = Ok F /\
            nrows F = inputs self /\ ncols F = inputs self /\
            (ScalarLaws R ->
             mat_eq F (difference_of (eye (inputs self))
                         (scale (of_int sign) (mprod (D k) (D self))))).
Proof.
  intros (Ha1 & Hb1 & Hc1 & Hd1 & Hd1' & Hi1 & Ho1)
         (Ha2 & Hb2 & Hc2 & Hd2 & Hd2' & Hi2 & Ho2) Hki Hko.
  unfold feedback_F. rewrite dot_aligned by (simpl; lia). cbn [bind].
  destruct (broadcast2_same_shape ssub (eye (inputs self))
              (mprod (scale (of_int sign) (D k)) (D self)))
    as (F & EF & HFr & HFc & HFe); [simpl; lia | simpl; lia |].
  unfold msub. rewrite EF. exists F. simpl in HFr, HFc, HFe.
  split; [reflexivity |]. split; [assumption |]. split; [assumption |].
  intros L. split; [assumption |]. split; [assumption |].
  intros i j Hi Hj. rewrite HFe by lia. simpl.
  rewrite (sum_upto_scale L). reflexivity.
Qed.

(** Runs the straight-line part of [feedback] on operands that fit. *)
Ltac run_feedback :=
  repeat first
    [ progress cbn [bind]
    | rewrite dot_aligned by (simpl; lia)
    | rewrite concatenate_rows by (simpl; lia)
    | rewrite concatenate_columns by (simpl; lia)
    | match goal with
      | |- context [madd ?a ?b] =>
          let m := fresh "m" in
          let E := fresh "E" in
          let Hr := fresh "Hr" in
          let Hc := fresh "Hc" in
          destruct (@madd_same_shape a b) as (m & E & Hr & Hc);
          [ simpl; lia | simpl; lia | simpl in Hr, Hc; rewrite E ]
      end ].

Lemma feedback_after_inverse (self k : StateSpace R) (sign : Z) (F G : matrix R) :
  constructed self -> constructed k ->
  inputs k = outputs self -> outputs k = inputs self ->
  feedback_F self k sign = Ok F ->
  nrows F = inputs self -> ncols F = inputs self ->
  linalg_inv F = Ok G -> nrows G = nrows F -> ncols G = ncols F ->
  exists s, feedback self k sign = Ok s /\
            nrows (A s) = nrows (A self) + nrows (A k) /\
            ncols (A s) = ncols (A self) + ncols (A k) /\
            constructed s.
Proof.
  intros (Ha1 & Hb1 & Hc1 & Hd1 & Hd1' & Hi1 & Ho1)
         (Ha2 & Hb2 & Hc2 & Hd2 & Hd2' & Hi2 & Ho2) Hki Hko EF HFr HFc EG HGr HGc.
  unfold feedback, getI. rewrite EF. cbn [bind].
  rewrite HFr, HFc, Nat.eqb_refl, EG. cbv zeta.
  run_feedback.
  rewrite StateSpace_init_Ok by (simpl; lia).
  eexists. split; [reflexivity |]. unfold constructed. simpl.
  repeat split; lia.
Qed.

Lemma feedback_inverse_fails (self k : StateSpace R) (sign : Z) (F : matrix R)
      (e : exn) :
  feedback_F self k sign = Ok F -> nrows F = ncols F ->
  linalg_inv F = Raise e -> feedback self k sign = Raise e.
Proof.
  intros EF Hsq EG. unfold feedback, getI.
  rewrite EF. cbn [bind]. rewrite Hsq, Nat.eqb_refl, EG. reflexivity.
Qed.


(** Inverts every [bind] of a successful run. *)
Ltac invert_binds H :=
  repeat (cbv beta in H;
          match type of H with
          | bind _ _ = Ok _ => apply bind_Ok_inv in H as (? & _ & H)
          end).

(** C9.  The model returned by [feedback] carries no sampling time,
    whatever the sampling times of [self] and [k] are: the constructor
    is called without [dt]. *)
Theorem feedback_drops_dt (self k : StateSpace R) (sign : Z) (s : StateSpace R) :
  feedback self k sign = Ok s -> dt s = None.
Proof.
  unfold feedback. cbv zeta. intros Hf. invert_binds Hf.
  apply StateSpace_init_constructed in Hf. apply Hf.
Qed.


(** *** Controllable form and pole placement *)

Lemma shape_mpow (a : matrix R) (i : nat) :
  nrows a = ncols a -> nrows (mpow a i) = nrows a /\ ncols (mpow a i) = nrows a.
Proof.
  intros Hsq. induction i as [| i [IHr IHc]]; simpl; split; congruence.
Qed.

Lemma matrix_power_square (a : matrix R) (i : nat) :
  nrows a = ncols a -> matrix_power a i = Ok (mpow a i).
Proof. intros Hsq. unfold matrix_power. rewrite Hsq, Nat.eqb_refl. reflexivity. Qed.

Lemma controllability_loop_Ok (self : StateSpace R) (range : list nat) (tmp : matrix R) :
  constructed self -> nrows tmp = nrows (A self) ->
  exists ctrb, controllability_loop self range tmp = Ok ctrb /\
               nrows ctrb = nrows (A self) /\
               ncols ctrb = ncols tmp + length range * ncols (B self).
Proof.
  intros (Ha & Hb & _). revert tmp.
  induction range as [| i range IH]; intros tmp Htmp; cbn [controllability_loop].
  - exists tmp. repeat split; [exact Htmp | simpl; lia].
  - rewrite matrix_power_square by exact Ha. cbn [bind].
    destruct (@shape_mpow (A self) i Ha) as [Hpr Hpc].
    rewrite dot_aligned by lia. cbn [bind].
    rewrite concatenate_columns by (simpl; lia). cbn [bind].
    destruct (IH (hstack tmp (mprod (mpow (A self) i) (B self))))
      as (ctrb & Ec & Hcr & Hcc); [simpl; exact Htmp |].
    exists ctrb. split; [exact Ec |]. split; [exact Hcr |].
    rewrite Hcc. simpl. lia.
Qed.

(** The controllability matrix of a model with n states and m inputs
    has n rows and m * max(n, 1) columns. *)
Lemma controllability_Ok (self : StateSpace R) :
  constructed self ->
  exists ctrb, controllability self = Ok ctrb /\
               nrows ctrb = nrows (A self) /\
               ncols ctrb = S (nrows (A self) - 1) * ncols (B self).
Proof.
  intros Hself. unfold controllability.
  destruct (@controllability_loop_Ok self (seq 1 (nrows (A self) - 1)) (B self) Hself)
    as (ctrb & Ec & Hr & Hc); [apply Hself |].
  exists ctrb. rewrite length_seq in Hc. split; [exact Ec |]. split; [exact Hr | lia].
Qed.

Lemma comprehension_Ok {X Y : Type} (f : X -> result Y) (l : list X) (ys : list Y) :
  comprehension f l = Ok ys ->
  length ys = length l /\ Forall (fun y => exists x, f x = Ok y) ys.
Proof.
  revert ys. induction l as [| x l IH]; intros ys Hc; simpl in Hc.
  - injection Hc as <-. split; [reflexivity | constructor].
  - apply bind_Ok_inv in Hc as (y & Hy & Hc).
    apply bind_Ok_inv in Hc as (ys' & Hys & Hc).
    injection Hc as <-. destruct (IH ys' Hys) as [Hlen Hall].
    split; [simpl; congruence |]. constructor; [exists x; exact Hy | exact Hall].
Qed.

Lemma length_flatten (m : matrix R) : length (flatten m) = nrows m * ncols m.
Proof.
  unfold flatten, to_rows.
  assert (Hgen : forall l0 : list nat,
             length (concat (map (fun i => map (entry m i) (seq 0 (ncols m))) l0))
             = length l0 * ncols m).
  { induction l0 as [| i l0 IH]; simpl; [reflexivity |].
    rewrite length_app, IH, length_map, length_seq. reflexivity. }
  rewrite Hgen, length_seq. reflexivity.
Qed.

Lemma vec_dot_row (p : list R) (m : matrix R) (r : matrix R) :
  vec_dot p m = Ok r -> nrows r = 1 /\ ncols r = ncols m.
Proof.
  unfold vec_dot. destruct (length p =? nrows m); [| discriminate].
  intros Hr. injection Hr as <-. split; reflexivity.
Qed.

Lemma of_rows_square (l : list (list R)) (n : nat) (m : matrix R) :
  1 <= n -> length l = n -> Forall (fun r => length r = n) l ->
  of_rows l = Ok m -> nrows m = n /\ ncols m = n.
Proof.
  intros Hn Hlen Hall. destruct l as [| r l]; [simpl in Hlen; lia |].
  unfold of_rows.
  assert (Hr : length r = n) by (inversion Hall; assumption).
  replace (forallb (fun r' => length r' =? length r) (r :: l)) with true.
  - intros Hm. injection Hm as <-. simpl. simpl in Hlen. split; assumption.
  - symmetry. apply forallb_forall. intros r' Hin. apply Nat.eqb_eq.
    rewrite Forall_forall in Hall. rewrite (Hall r' Hin). symmetry. exact Hr.
Qed.

(** The transformation to controllable form of a model with n >= 1
    states is an n x n matrix. *)
Lemma to_controllable_form_shape (self : StateSpace R) (T : matrix R) :
  constructed self -> 1 <= nrows (A self) -> inv_keeps_shape ->
  to_controllable_form self = Ok T ->
  nrows T = nrows (A self) /\ ncols T = nrows (A self).
Proof.
  intros (Ha & _) Hn Hinv Hf. unfold to_controllable_form in Hf.
  apply bind_Ok_inv in Hf as (ctrb & _ & Hf).
  apply bind_Ok_inv in Hf as (M & _ & Hf).
  apply bind_Ok_inv in Hf as (p & _ & Hf).
  apply bind_Ok_inv in Hf as (rws & Hrws & Hf).
  apply bind_Ok_inv in Hf as (T0 & HT0 & Hf).
  apply Hinv in Hf as [Hr Hc]. rewrite Hr, Hc.
  apply comprehension_Ok in Hrws as [Hlen Hall]. rewrite length_seq in Hlen.
  apply (@of_rows_square rws (nrows (A self)) T0 Hn Hlen); [| exact HT0].
  apply Forall_forall. intros y Hy. rewrite Forall_forall in Hall.
  destruct (Hall y Hy) as (i & Hi).
  rewrite matrix_power_square in Hi by exact Ha. cbn [bind] in Hi.
  apply bind_Ok_inv in Hi as (r & Hrow & Hi). injection Hi as <-.
  apply vec_dot_row in Hrow as [Hr1 Hr2].
  rewrite length_flatten, Hr1, Hr2.
  destruct (@shape_mpow (A self) i Ha) as [_ Hpc]. lia.
Qed.

Lemma length_convolve_linear_aux (prev : R) (a : list R) (z : R) :
  length (convolve_linear_aux prev a z) = S (length a).
Proof.
  revert prev. induction a as [| x a IH]; intros prev; simpl;
    [reflexivity | rewrite IH; reflexivity].
Qed.

Lemma length_fold_convolve (poles acc : list R) :
  acc <> [] ->
  length (fold_left convolve_linear poles acc) = length acc + length poles.
Proof.
  revert acc. induction poles as [| z poles IH]; intros acc Hacc; simpl.
  - lia.
  - destruct acc as [| x acc]; [contradiction |].
    rewrite IH by (simpl; discriminate).
    simpl. rewrite length_convolve_linear_aux. lia.
Qed.

Lemma length_desired_coefficients (poles : list R) :
  length (desired_coefficients poles) = length poles.
Proof.
  unfold desired_coefficients.
  pose proof (@length_fold_convolve poles [sone]) as Hl.
  destruct (fold_left convolve_linear poles [sone]) as [| c cs];
    simpl in *; specialize (Hl ltac:(discriminate)); lia.
Qed.

Lemma tail_from_1_np_poly (poles : list R) :
  poles <> [] -> tail_from_1 (np_poly poles) = Ok (desired_coefficients poles).
Proof. destruct poles; [contradiction | reflexivity]. Qed.

Lemma last_row_Ok (m : matrix R) :
  1 <= nrows m ->
  exists a, last_row m = Ok a /\ length a = ncols m.
Proof.
  intros Hn. unfold last_row. destruct (nrows m) as [| i]; [lia |].
  eexists. split; [reflexivity |]. rewrite length_map, length_seq. reflexivity.
Qed.

(** *** The matrices that pole placement inverts *)

Lemma to_controllable_form_rows (self : StateSpace R) :
  to_controllable_form self = (T0 <- controllable_form_rows self ;; linalg_inv T0).
Proof.
  unfold to_controllable_form, controllable_form_rows.
  destruct (controllability self) as [ctrb | e]; cbn [bind]; [| reflexivity].
  destruct (getI ctrb) as [M | e]; cbn [bind]; [| reflexivity].
  destruct (last_row M) as [p | e]; cbn [bind]; [| reflexivity].
  destruct (comprehension _ _) as [T | e]; cbn [bind]; [| reflexivity].
  destruct (of_rows T) as [T0 | e]; reflexivity.
Qed.

Lemma controllable_form_rows_shape (self : StateSpace R) (T0 : matrix R) :
  constructed self -> 1 <= nrows (A self) ->
  controllable_form_rows self = Ok T0 ->
  nrows T0 = nrows (A self) /\ ncols T0 = nrows (A self).
Proof.
  intros (Ha & _) Hn Hf. unfold controllable_form_rows in Hf.
  apply bind_Ok_inv in Hf as (ctrb & _ & Hf).
  apply bind_Ok_inv in Hf as (M & _ & Hf).
  apply bind_Ok_inv in Hf as (p & _ & Hf).
  apply bind_Ok_inv in Hf as (rws & Hrws & HT0).
  apply comprehension_Ok in Hrws as [Hlen Hall]. rewrite length_seq in Hlen.
  apply (@of_rows_square rws (nrows (A self)) T0 Hn Hlen); [| exact HT0].
  apply Forall_forall. intros y Hy. rewrite Forall_forall in Hall.
  destruct (Hall y Hy) as (i & Hi).
  rewrite matrix_power_square in Hi by exact Ha. cbn [bind] in Hi.
  apply bind_Ok_inv in Hi as (r & Hrow & Hi). injection Hi as <-.
  apply vec_dot_row in Hrow as [Hr1 Hr2].
  rewrite length_flatten, Hr1, Hr2.
  destruct (@shape_mpow (A self) i Ha) as [_ Hpc]. lia.
Qed.

Lemma is_inverse_sym (f g : matrix R) : is_inverse f g -> is_inverse g f.
Proof.
  intros (Hr & Hc & Hfg & Hgf). unfold is_inverse. rewrite Hr.
  repeat split; try congruence; try apply Hgf; try apply Hfg.
Qed.

Lemma contract_inverts (f : matrix R) :
  inv_contract f -> invertible f ->
  exists g, linalg_inv f = Ok g /\ is_inverse f g.
Proof.
  unfold inv_contract. intros Hc Hinv.
  destruct (linalg_inv f) as [g | e].
  - exists g. split; [reflexivity | exact Hc].
  - destruct Hc as [_ Hno]. contradiction.
Qed.


End Properties.

(** ** The unknowns of the Lyapunov solver *)

Lemma symbol_name_mirrored (j i : nat) : symbol_name j i = symbol_name i j.
Proof.
  unfold symbol_name.
  destruct (Nat.leb_spec i j) as [Hij | Hij], (Nat.leb_spec j i) as [Hji | Hji];
    try reflexivity; try lia.
  assert (Heq : i = j) by lia. subst i. reflexivity.
Qed.

Lemma lyapunov_symbols_entry (n j i : nat) :
  j < n -> i < n -> nth i (nth j (lyapunov_symbols n) []) "" = symbol_name j i.
Proof.
  intros Hj Hi. unfold lyapunov_symbols.
  rewrite (nth_indep _ [] (map (fun i => symbol_name 0 i) (seq 0 n)))
    by (rewrite length_map, length_seq; exact Hj).
  rewrite (map_nth (fun j => map (fun i => symbol_name j i) (seq 0 n))).
  rewrite seq_nth by exact Hj. simpl.
  rewrite (nth_indep _ "" (symbol_name j 0))
    by (rewrite length_map, length_seq; exact Hi).
  rewrite (map_nth (fun i => symbol_name j i)).
  rewrite seq_nth by exact Hi. reflexivity.
Qed.

(** The matrix that [lyapunov] evaluates is symmetric for every assignment
    of the unknowns: the symbols are mirrored across the diagonal. *)
Lemma lyapunov_subs_symmetric {R : Type} (n : nat) (v : string -> R) (i j : nat) :
  i < n -> j < n ->
  entry (lyapunov_subs n v) i j = entry (lyapunov_subs n v) j i.
Proof.
  intros Hi Hj. simpl.
  rewrite !lyapunov_symbols_entry by assumption.
  rewrite symbol_name_mirrored. reflexivity.
Qed.

Lemma distinctb_NoDup (l : list string) : distinctb l = true -> NoDup l.
Proof.
  induction l as [| x l IH]; simpl; intros Hd; [constructor |].
  apply andb_true_iff in Hd as [Hx Hl]. constructor; [| apply IH; exact Hl].
  intros Hin. apply negb_true_iff in Hx.
  assert (Hex : existsb (String.eqb x) l = true).
  { apply existsb_exists. exists x. split; [exact Hin | apply String.eqb_refl]. }
  congruence.
Qed.

(** For the state orders the solver is meant for (one-digit indices), the
    n (n + 1) / 2 unknowns are pairwise distinct. *)
Lemma triangle_unknowns_distinct (n : nat) :
  n <= 10 -> NoDup (triangle_unknowns n) /\ length (triangle_unknowns n) = n * (n + 1) / 2.
Proof.
  intros Hn.
  do 11 (destruct n as [| n];
         [split; [apply distinctb_NoDup; vm_compute; reflexivity
                 | vm_compute; reflexivity] |]).
  lia.
Qed.

Lemma lyapunov_symbol_10_10 :
  nth 10 (nth 10 (lyapunov_symbols 102) []) "" = "p_1010".
Proof. vm_compute. reflexivity. Qed.

Lemma lyapunov_symbol_101_0 :
  nth 0 (nth 101 (lyapunov_symbols 102) []) "" = "p_1010".
Proof. vm_compute. reflexivity. Qed.

(** C6.  With 102 states the symbol matrix of [lyapunov] does not have
    n (n + 1) / 2 distinct unknowns: the entries at (10, 10) and at
    (101, 0) are one and the same symbol, named p_1010, so that every
    matrix the solver can return has equal entries there. *)
Theorem lyapunov_unknowns_collide :
  nth 10 (nth 10 (lyapunov_symbols 102) []) "" = "p_1010" /\
  nth 0 (nth 101 (lyapunov_symbols 102) []) "" = "p_1010" /\
  ~ NoDup (triangle_unknowns 102) /\
  forall (R : Type) (v : string -> R),
    entry (lyapunov_subs 102 v) 10 10 = entry (lyapunov_subs 102 v) 101 0.
Proof.
  split; [exact lyapunov_symbol_10_10 |].
  split; [exact lyapunov_symbol_101_0 |]. split.
  - intros Hnd.
    assert (Hlen : length (triangle_unknowns 102) = 51 * 103) by (vm_compute; reflexivity).
    pose proof (proj1 (NoDup_nth (triangle_unknowns 102) "") Hnd 65 (51 * 101)) as Hinj.
    rewrite Hlen in Hinj.
    assert (Heq : nth 65 (triangle_unknowns 102) ""
                  = nth (51 * 101) (triangle_unknowns 102) "")
      by (vm_compute; reflexivity).
    specialize (Hinj ltac:(lia) ltac:(lia) Heq). lia.
  - intros R v.
    change (v (nth 10 (nth 10 (lyapunov_symbols 102) []) "")
            = v (nth 0 (nth 101 (lyapunov_symbols 102) []) "")).
    rewrite lyapunov_symbol_10_10, lyapunov_symbol_101_0. reflexivity.
Qed.


(** ** The Lyapunov solver *)

Section LyapunovProperties.

Context {R : Type} `{Scalar R}.
Variable is_ctime : StateSpace R -> bool.
Variable sym_solve :
  ((string -> R) -> result (matrix R)) -> list string -> list (string * R).

(** When the solver finds no solution, [lyapunov] returns [None] and does
    not raise. *)
Lemma lyapunov_no_solution (sys_ : StateSpace R) :
  sym_solve (lyapunov_equation (is_ctime sys_) sys_)
            (lyapunov_unknowns (nrows (A sys_))) = [] ->
  lyapunov is_ctime sym_solve sys_ = Ok None.
Proof. intros Hs. unfold lyapunov. rewrite Hs. reflexivity. Qed.

(** A matrix that [lyapunov] returns is n x n and symmetric. *)
Lemma lyapunov_result_symmetric (sys_ : StateSpace R) (X : matrix R) :
  lyapunov is_ctime sym_solve sys_ = Ok (Some X) ->
  nrows X = nrows (A sys_) /\ ncols X = nrows (A sys_) /\
  forall i j, i < nrows (A sys_) -> j < nrows (A sys_) -> entry X i j = entry X j i.
Proof.
  unfold lyapunov.
  destruct (sym_solve _ _) as [| p ps]; [discriminate |].
  destruct (forallb _ _); [| discriminate].
  intros HX. injection HX as <-.
  split; [reflexivity |]. split; [reflexivity |].
  intros i j Hi Hj. apply lyapunov_subs_symmetric; assumption.
Qed.

End LyapunovProperties.

(** ** The rationals as scalars *)

Lemma Q_scalar_laws : ScalarLaws Q.
Proof.
  constructor; intros; cbv [smul sadd szero Q_scalar].
  - apply Qred_complete. rewrite !Qred_correct. ring.
  - apply Qred_complete. rewrite !Qred_correct. ring.
  - transitivity (Qred 0); [apply Qred_complete; ring | reflexivity].
Qed.

Lemma exact_inv_keeps_shape : @inv_keeps_shape Q Q_linalg.
Proof.
  intros m g. simpl. unfold exact_inv.
  destruct (nrows m =? ncols m); [| discriminate].
  destruct (Qeq_bool (det (nrows m) (entry m)) 0); [discriminate |].
  intros Hg. injection Hg as <-. split; reflexivity.
Qed.

Lemma constructed_test_ss (t : option Q) : constructed (test_ss t).
Proof. unfold constructed. simpl. repeat split. Defined.

Lemma constructed_siso (a b c d : Q) (t : option Q) : constructed (siso a b c d t).
Proof. unfold constructed. simpl. repeat split. Defined.

(** ** The Lyapunov equation of [x' = -x] *)

Lemma sadd_Q (x y : Q) : sadd x y = Qred (x + y).
Proof. reflexivity. Qed.

Lemma smul_Q (x y : Q) : smul x y = Qred (x * y).
Proof. reflexivity. Qed.

Lemma sopp_Q (x : Q) : sopp x = Qred (- x).
Proof. reflexivity. Qed.

Lemma sum_upto_zero (n : nat) (f : nat -> Q) :
  (forall k, k < n -> f k == 0) -> sum_upto n f == 0.
Proof.
  induction n as [| n IH]; intros Hf; cbn [sum_upto]; [reflexivity |].
  rewrite sadd_Q, Qred_correct, IH, Hf by auto. reflexivity.
Qed.

Lemma sum_upto_single (n c : nat) (f : nat -> Q) :
  c < n -> (forall k, k < n -> k <> c -> f k == 0) -> sum_upto n f == f c.
Proof.
  induction n as [| n IH]; intros Hc Hf; [lia |]. cbn [sum_upto].
  rewrite sadd_Q, Qred_correct.
  destruct (Nat.eq_dec c n) as [-> | Hne].
  - rewrite sum_upto_zero by (intros k Hk; apply Hf; lia). ring.
  - rewrite IH by (try lia; intros k Hk Hkc; apply Hf; lia).
    rewrite (Hf n) by lia. ring.
Qed.

(** For A = -I the left-hand side of the continuous equation at X is
    -2 X + I, entry by entry. *)
Lemma lyapunov_lhs_minus_identity (n : nat) (X : matrix Q) :
  nrows X = n -> ncols X = n ->
  exists Z, lyapunov_lhs true (neg (eye n)) X = Ok Z /\
            nrows Z = n /\ ncols Z = n /\
            forall i j, i < n -> j < n ->
              exists q, entry Z i j = Qred q /\
                        q == - (2) * entry X i j + (if i =? j then 1 else 0).
Proof.
  intros Hr Hc. unfold lyapunov_lhs.
  rewrite dot_aligned by (simpl; lia). cbn [bind].
  rewrite dot_aligned by (simpl; lia). cbn [bind].
  destruct (broadcast2_same_shape sadd (mprod (transpose (neg (eye n))) X)
              (mprod X (neg (eye n)))) as (s & Es & Hsr & Hsc & Hse);
    [simpl; lia | simpl; lia |].
  unfold madd. rewrite Es. cbn [bind].
  cbn [nrows ncols entry mprod transpose neg eye] in Hsr, Hsc, Hse.
  destruct (broadcast2_same_shape sadd s (eye (nrows (neg (eye n)))))
    as (Z & EZ & HZr & HZc & HZe);
    [cbn [nrows ncols neg eye]; lia | cbn [nrows ncols neg eye]; lia |].
  cbn [nrows ncols entry neg eye] in HZr, HZc, HZe.
  rewrite EZ. exists Z.
  split; [reflexivity |]. split; [lia |]. split; [lia |].
  intros i j Hi Hj. rewrite HZe, Hse by lia.
  eexists. split; [apply sadd_Q |].
  rewrite sadd_Q, Qred_correct.
  rewrite (@sum_upto_single n i); [| lia |].
  2: { intros k Hk Hki. apply Nat.eqb_neq in Hki. rewrite Hki.
       rewrite smul_Q, sopp_Q, !Qred_correct. change (@szero Q Q_scalar) with 0%Q. ring. }
  rewrite Hc, (@sum_upto_single n j); [| lia |].
  2: { intros k Hk Hkj. apply Nat.eqb_neq in Hkj. rewrite Hkj.
       rewrite smul_Q, sopp_Q, !Qred_correct. change (@szero Q Q_scalar) with 0%Q. ring. }
  rewrite !Nat.eqb_refl, !smul_Q, !sopp_Q, !Qred_correct.
  change (@sone Q Q_scalar) with 1%Q. change (@szero Q Q_scalar) with 0%Q. ring.
Qed.

(** With 102 states the equations that [lyapunov] hands to the solver have
    no solution in the unknowns of the code, for the system [x' = -x],
    although the Lyapunov equation A^T X + X A = -I of this system is
    solved by the symmetric matrix X = I / 2: the one symbol p_1010 stands
    for the diagonal entry (10, 10), which has to be 1/2, and for the
    entry (101, 0), which has to be 0. *)
Lemma lyapunov_order_102_no_solution :
  (exists Z, lyapunov_lhs true (A (minus_identity 102)) (half_identity 102) = Ok Z /\
             all_zero Z) /\
  (forall i j, entry (half_identity 102) i j = entry (half_identity 102) j i) /\
  (forall (v : string -> Q) (Z : matrix Q),
      lyapunov_equation true (minus_identity 102) v = Ok Z -> ~ all_zero Z).
Proof.
  split; [| split].
  - destruct (@lyapunov_lhs_minus_identity 102 (half_identity 102) eq_refl eq_refl)
      as (Z & EZ & HZr & HZc & HZe).
    exists Z. split; [exact EZ |].
    intros i j Hi Hj. rewrite HZr in Hi. rewrite HZc in Hj.
    destruct (HZe i j Hi Hj) as (q & Eq & Hq). rewrite Eq.
    change (Qred q = Qred 0). apply Qred_complete. rewrite Hq.
    cbn [entry half_identity]. destruct (i =? j); reflexivity.
  - intros i j. simpl. rewrite (Nat.eqb_sym i j). reflexivity.
  - intros v Z EZ Hzero.
    destruct (@lyapunov_lhs_minus_identity 102 (lyapunov_subs 102 v) eq_refl eq_refl)
      as (Z' & EZ' & HZr & HZc & HZe).
    unfold lyapunov_equation in EZ.
    change (A (minus_identity 102)) with (neg (eye (R := Q) 102)) in EZ.
    change (nrows (neg (eye (R := Q) 102))) with 102 in EZ.
    rewrite EZ' in EZ. injection EZ as <-.
    destruct (HZe 10 10 ltac:(lia) ltac:(lia)) as (q1 & E1 & H1).
    destruct (HZe 101 0 ltac:(lia) ltac:(lia)) as (q2 & E2 & H2).
    pose proof (Hzero 10 10 ltac:(lia) ltac:(lia)) as Z1.
    pose proof (Hzero 101 0 ltac:(lia) ltac:(lia)) as Z2.
    rewrite E1 in Z1. rewrite E2 in Z2.
    assert (Q1 : q1 == 0) by (rewrite <- (Qred_correct q1), Z1; reflexivity).
    assert (Q2 : q2 == 0) by (rewrite <- (Qred_correct q2), Z2; reflexivity).
    change (entry (lyapunov_subs 102 v) 10 10)
      with (v (nth 10 (nth 10 (lyapunov_symbols 102) []) "")) in H1.
    change (entry (lyapunov_subs 102 v) 101 0)
      with (v (nth 0 (nth 101 (lyapunov_symbols 102) []) "")) in H2.
    rewrite lyapunov_symbol_10_10 in H1. rewrite lyapunov_symbol_101_0 in H2.
    change (10 =? 10) with true in H1. change (101 =? 0) with false in H2.
    rewrite Q1 in H1. rewrite Q2 in H2. lra.
Qed.

(** So [lyapunov] answers [None] on this system, whatever sound solver it
    is given, although the equation has a solution. *)
Lemma lyapunov_order_102_returns_None
      (is_ctime : StateSpace Q -> bool)
      (sym_solve : ((string -> Q) -> result (matrix Q)) -> list string -> list (string * Q)) :
  is_ctime (minus_identity 102) = true ->
  solver_sound sym_solve ->
  lyapunov is_ctime sym_solve (minus_identity 102) = Ok None.
Proof.
  intros Hct Hsound. unfold lyapunov. rewrite Hct.
  destruct (sym_solve (lyapunov_equation true (minus_identity 102))
              (lyapunov_unknowns (nrows (A (minus_identity 102))))) as [| p ps] eqn:Es;
    [reflexivity |].
  exfalso.
  destruct (Hsound (lyapunov_equation true (minus_identity 102))
              (lyapunov_unknowns (nrows (A (minus_identity 102)))))
    as (Z & EZ & HZ); [rewrite Es; discriminate |].
  exact (proj2 (proj2 lyapunov_order_102_no_solution) _ Z EZ HZ).
Qed.


(** Evaluates a computation on rationals that returns. *)
Ltac returns := apply Ok_value_or; vm_compute; reflexivity.

(** ** The tests of the repository, replayed on the model *)

(** [test___init__]: a scalar D is accepted, swapped B and C are not. *)
Example test_init :
  (exists s, StateSpace_init (Mat test_A) (Mat test_B) (Mat test_C) (Num 0%Q) None = Ok s /\
             StateSpace_eq s (test_ss None) = true) /\
  StateSpace_init (Mat test_A) (Mat test_C) (Mat test_B) (Num 0%Q) None
  = Raise (ValueError "{0} != ({1}, {2}), wrong shape of B") /\
  StateSpace_init (Mat test_A) (Mat test_C) (Num 0%Q) (Mat test_B) None
  = Raise (ValueError "{0} != ({1}, {2}), wrong shape of B").
Proof.
  split; [eexists; split; [reflexivity | vm_compute; reflexivity] |].
  split; reflexivity.
Qed.

(** [test___add__]: the sum of the test system with itself. *)
Example test_add :
  exists s1 s2,
    StateSpace_add (test_ss None) (test_ss None) = Ok s1 /\
    StateSpace_init
      (List2 [[0; 1; 0; 0]; [-4; -1 # 2; 0; 0]; [0; 0; 0; 1]; [0; 0; -4; -1 # 2]]%Q)
      (List2 [[0]; [1]; [0]; [1]]%Q) (List1 [4; 0; 4; 0]%Q) (Num 0%Q) None = Ok s2 /\
    StateSpace_eq s1 s2 = true.
Proof.
  eexists (value_or _ no_model). eexists (value_or _ no_model).
  split; [returns |]. split; [returns |]. vm_compute. reflexivity.
Qed.

(** [test_to_controllable_form]: the test system is in controllable form
    already, the transformation is the identity. *)
Example test_to_controllable_form :
  exists T, to_controllable_form (test_ss None) = Ok T /\
            to_rows T = [[1; 0]; [0; 1]]%Q.
Proof.
  eexists (value_or _ (zeros 0 0)). split; [returns | vm_compute; reflexivity].
Qed.

(** ** The properties at concrete systems *)

Lemma StateSpace_init_shape_invariant_witness :
  exists s, StateSpace_init (Mat test_A) (Mat test_B) (Mat test_C) (Mat test_D) None = Ok s /\
            A s = test_A /\ B s = test_B /\ C s = test_C /\ D s = test_D /\
            dt s = None /\ inputs s = 1 /\ outputs s = 1.
Proof.
  apply (proj2 (StateSpace_init_shape_invariant test_A test_B test_C test_D None)).
  unfold shape_violation. simpl.
  intros [Hv | [Hv | [Hv | Hv]]]; apply Hv; reflexivity.
Defined.

(** The parallel connection of the test system with itself. *)
Lemma StateSpace_add_parallel_witness :
  exists s, StateSpace_add (test_ss None) (test_ss None) = Ok s /\
            nrows (A s) = 4 /\
            to_rows (B s) = [[0]; [1]; [0]; [1]]%Q /\
            to_rows (C s) = [[4; 0; 4; 0]]%Q /\
            dt s = None.
Proof.
  destruct (proj2 (StateSpace_add_parallel (constructed_test_ss None)
                     (constructed_test_ss None)) eq_refl) as [_ Hok].
  destruct (Hok None eq_refl) as (s & Hs & _ & Hn & HB & HC & _ & Hdt).
  exists s. split; [exact Hs |]. split; [exact Hn |].
  rewrite HB, HC. split; [vm_compute; reflexivity |].
  split; [vm_compute; reflexivity | exact Hdt].
Defined.

(** C4 as the specification words it fails on two models that differ in
    their sampling times only: the D have one shape and no model is
    returned. *)
Lemma StateSpace_add_sampling_counterexample :
  ~ parallel_as_specified (test_ss (Some 1%Q)) (test_ss (Some 2%Q))
      (StateSpace_add (test_ss (Some 1%Q)) (test_ss (Some 2%Q))).
Proof.
  intros [_ Hret]. destruct (Hret eq_refl) as (s & Hs & _).
  apply (f_equal is_Ok) in Hs. vm_compute in Hs. discriminate Hs.
Qed.

(** What the sum of the two sampled models is. *)
Example StateSpace_add_sampling :
  StateSpace_add (test_ss (Some 1%Q)) (test_ss (Some 2%Q))
  = Raise (ValueError "different sampling times").
Proof. vm_compute. reflexivity. Qed.

(** The series connection of two first-order systems. *)
Lemma StateSpace_mul_series_witness :
  exists s, StateSpace_mul no_tf2ss (siso 1 2 3 4 None) (Model (siso 5 6 7 8 None)) = Ok s /\
            to_rows (B s) = [[28]; [3]]%Q /\
            to_rows (C s) = [[6; 16]]%Q /\
            to_rows (D s) = [[32]]%Q /\
            dt s = None.
Proof.
  destruct (proj2 (StateSpace_mul_series no_tf2ss
                     (constructed_siso 1 2 3 4 None) (constructed_siso 5 6 7 8 None))
                  None eq_refl eq_refl eq_refl)
    as (s & Hs & _ & HB & HC & HD & Hdt).
  exists s. split; [exact Hs |]. rewrite HB, HC, HD.
  split; [vm_compute; reflexivity |]. split; [vm_compute; reflexivity |].
  split; [vm_compute; reflexivity | exact Hdt].
Defined.

(** The B and the C that the product has. *)
Example StateSpace_mul_transposed :
  exists s, StateSpace_mul no_tf2ss (siso 1 2 3 4 None) (Model (siso 5 6 7 8 None)) = Ok s /\
            to_rows (A s) = [[1; 14]; [0; 5]]%Q /\
            to_rows (B s) = [[28]; [3]]%Q /\
            to_rows (C s) = [[6; 16]]%Q /\
            to_rows (vstack (rows [[6]]%Q) (mprod (rows [[2]]%Q) (rows [[8]]%Q)))
            = [[6]; [16]]%Q.
Proof.
  eexists (value_or _ no_model). split; [returns |].
  repeat split; vm_compute; reflexivity.
Qed.

(** The guard of [__mul__] compares [self.outputs] with [other.inputs]:
    a system with one input and two outputs is not accepted on the left
    of a first-order system, although its input count is the output count
    of the latter. *)
Example StateSpace_mul_guard :
  inputs one_in_two_out = outputs (siso 5 6 7 8 None) /\
  StateSpace_mul no_tf2ss one_in_two_out (Model (siso 5 6 7 8 None))
  = Raise (ValueError "outputs are not equal to inputs").
Proof. split; reflexivity. Qed.

(** A sum and a product with one sampling time unset, and a product of
    two models sampled at different rates. *)
Lemma sampling_time_reconciliation_witness :
  (exists s, StateSpace_add (test_ss None) (test_ss (Some (1 # 10)%Q)) = Ok s /\
             dt s = Some (1 # 10)%Q) /\
  (exists s, StateSpace_mul no_tf2ss (test_ss (Some (1 # 10)%Q)) (Model (test_ss None)) = Ok s /\
             dt s = Some (1 # 10)%Q) /\
  (exists e, StateSpace_mul no_tf2ss (test_ss (Some 1%Q)) (Model (test_ss (Some 2%Q))) = Raise e /\
             IncompatibleSamplingTime e).
Proof.
  split; [| split].
  - destruct (sampling_time_reconciliation no_tf2ss (constructed_test_ss None)
                (constructed_test_ss (Some (1 # 10)%Q))) as [Hadd _].
    destruct (Hadd eq_refl) as (Hleft & _).
    exact (Hleft (1 # 10)%Q eq_refl eq_refl).
  - destruct (sampling_time_reconciliation no_tf2ss
                (constructed_test_ss (Some (1 # 10)%Q))
                (constructed_test_ss None)) as [_ Hmul].
    destruct (Hmul eq_refl) as (Hok & _).
    destruct (Hok eq_refl) as (_ & Hright & _).
    exact (Hright (1 # 10)%Q eq_refl eq_refl).
  - destruct (sampling_time_reconciliation no_tf2ss
                (constructed_test_ss (Some 1%Q))
                (constructed_test_ss (Some 2%Q))) as [_ Hmul].
    destruct (Hmul eq_refl) as (_ & Hdiffer).
    exact (Hdiffer 1%Q 2%Q eq_refl eq_refl eq_refl).
Defined.

(** C5 as the specification words it fails on two models that differ both
    in the shape of D and in their sampling times: the sum fails on the
    shapes, before the sampling times are looked at. *)
Lemma sampling_time_shape_first_counterexample :
  ~ reconciliation_as_specified (test_ss (Some 1%Q)) (two_in_one_out (Some 2%Q))
      (StateSpace_add (test_ss (Some 1%Q)) (two_in_one_out (Some 2%Q))).
Proof.
  intros (_ & _ & _ & Hdiffer).
  destruct (Hdiffer 1%Q 2%Q eq_refl eq_refl eq_refl) as (e & He & Hk).
  vm_compute in He. injection He as <-.
  destruct Hk as [Hk | Hk]; discriminate Hk.
Qed.


(** Positive unity feedback around a unity-gain block: the loop of the
    specification that has no solution. *)
Example feedback_singular_loop :
  feedback (siso 0 1 1 1 None) (siso 0 0 0 1 None) 1
  = Raise (LinAlgError "Singular matrix").
Proof. vm_compute. reflexivity. Qed.

(** Feedback of two sampled models. *)
Lemma feedback_drops_dt_witness :
  exists s, feedback (test_ss (Some 1%Q)) (siso 0 0 0 1 (Some 1%Q)) (-1) = Ok s /\
            dt s = None.
Proof.
  exists (value_or (feedback (test_ss (Some 1%Q)) (siso 0 0 0 1 (Some 1%Q)) (-1)) no_model).
  assert (Es : feedback (test_ss (Some 1%Q)) (siso 0 0 0 1 (Some 1%Q)) (-1)
               = Ok (value_or (feedback (test_ss (Some 1%Q)) (siso 0 0 0 1 (Some 1%Q)) (-1))
                              no_model)) by returns.
  split; [exact Es | exact (feedback_drops_dt _ _ _ Es)].
Defined.


(** ** The pseudo-inverse on the matrices of the examples *)

(** The zero column and a matrix of rank one: the pseudo-inverses satisfy
    the four conditions of Moore and Penrose. *)
Example exact_pinv_zero_column :
  exists g, exact_pinv (rows [[0]; [0]]%Q) = Ok g /\
            to_rows g = [[0; 0]]%Q /\
            penrose_conditions (rows [[0]; [0]]%Q) g = true.
Proof.
  eexists (value_or _ (zeros 0 0)). split; [returns |].
  split; vm_compute; reflexivity.
Qed.

Example exact_pinv_rank_one :
  exists g, exact_pinv (rows [[1; 1; 1; 1]; [0; 0; 0; 0]]%Q) = Ok g /\
            to_rows g = [[1 # 4; 0]; [1 # 4; 0]; [1 # 4; 0]; [1 # 4; 0]]%Q /\
            penrose_conditions (rows [[1; 1; 1; 1]; [0; 0; 0; 0]]%Q) g = true.
Proof.
  eexists (value_or _ (zeros 0 0)). split; [returns |].
  split; vm_compute; reflexivity.
Qed.

Example exact_pinv_full_rank :
  exists g, exact_pinv (rows [[1; 2]; [3; 4]; [5; 6]]%Q) = Ok g /\
            to_rows g = [[-4 # 3; -1 # 3; 2 # 3]; [13 # 12; 1 # 3; -5 # 12]]%Q /\
            penrose_conditions (rows [[1; 2]; [3; 4]; [5; 6]]%Q) g = true.
Proof.
  eexists (value_or _ (zeros 0 0)). split; [returns |].
  split; vm_compute; reflexivity.
Qed.

(** ** Series connection at two first-order systems *)

(** C2.  The product of the first-order systems with (A, B, C, D) =
    (1, 2, 3, 4) and (5, 6, 7, 8) is returned, and it is not their series
    connection: its B is [[28], [3]], the transpose of the C that the
    code computes, where the series connection has other.B over
    self.B * other.D = [[6], [16]]; its C is [[6, 16]] where the series
    connection has [[28, 3]]; and its steady-state gain is -476/5, where
    the series connection has the product 4/5 of the two gains.  The
    guard compares [self.outputs] with [other.inputs]: a model with one
    input and two outputs is refused on the left of a model with one
    output, although [self.inputs == other.outputs]. *)
Theorem StateSpace_mul_not_series :
  (exists s,
      StateSpace_mul no_tf2ss (siso 1 2 3 4 None) (Model (siso 5 6 7 8 None)) = Ok s /\
      to_rows (B s) = [[28]; [3]]%Q /\
      to_rows (C s) = [[6; 16]]%Q /\
      exists g, dc_gain s = Ok g /\ to_rows g = [[-476 # 5]]%Q) /\
  to_rows (vstack (B (siso 5 6 7 8 None))
                  (mprod (B (siso 1 2 3 4 None)) (D (siso 5 6 7 8 None))))
  = [[6]; [16]]%Q /\
  to_rows (hstack (mprod (D (siso 1 2 3 4 None)) (C (siso 5 6 7 8 None)))
                  (C (siso 1 2 3 4 None)))
  = [[28; 3]]%Q /\
  (exists g1 g2,
      dc_gain (siso 1 2 3 4 None) = Ok g1 /\ dc_gain (siso 5 6 7 8 None) = Ok g2 /\
      to_rows (mprod g1 g2) = [[4 # 5]]%Q) /\
  ~ series_as_specified (siso 1 2 3 4 None) (siso 5 6 7 8 None)
      (StateSpace_mul no_tf2ss (siso 1 2 3 4 None) (Model (siso 5 6 7 8 None))) /\
  inputs one_in_two_out = outputs (siso 5 6 7 8 None) /\
  StateSpace_mul no_tf2ss one_in_two_out (Model (siso 5 6 7 8 None))
  = Raise (ValueError "outputs are not equal to inputs").
Proof.
  pose (s0 := value_or (StateSpace_mul no_tf2ss (siso 1 2 3 4 None)
                          (Model (siso 5 6 7 8 None))) no_model).
  assert (Es : StateSpace_mul no_tf2ss (siso 1 2 3 4 None) (Model (siso 5 6 7 8 None))
               = Ok s0) by returns.
  split; [| split; [| split; [| split; [| split; [| split]]]]].
  - exists s0. split; [exact Es |].
    split; [vm_compute; reflexivity |]. split; [vm_compute; reflexivity |].
    eexists (value_or _ (zeros 0 0)). split; [returns | vm_compute; reflexivity].
  - vm_compute. reflexivity.
  - vm_compute. reflexivity.
  - eexists (value_or _ (zeros 0 0)). eexists (value_or _ (zeros 0 0)).
    split; [returns |]. split; [returns | vm_compute; reflexivity].
  - intros [_ Hret]. destruct (Hret eq_refl) as (s & Hs & _ & (_ & _ & HB) & _).
    rewrite Es in Hs. injection Hs as <-.
    specialize (HB 0 0 ltac:(vm_compute; lia) ltac:(vm_compute; lia)).
    vm_compute in HB. discriminate HB.
  - reflexivity.
  - reflexivity.
Qed.

(** The steady-state gains of two models with the A of the product,
    [[1, 14], [0, 5]], whose states are those of [self] followed by those
    of [other]: with B and C in the block order of lines 119 and 120
    ([other] first) the gain is 5544/5; with the blocks in the order of
    the states of A it is 4/5, the product of the two gains. *)
Example series_connection_block_order :
  (exists g, dc_gain (mk_StateSpace (rows [[1; 14]; [0; 5]]%Q) (rows [[6]; [16]]%Q)
                                    (rows [[28; 3]]%Q) (rows [[32]]%Q) 1 1 None) = Ok g /\
             to_rows g = [[5544 # 5]]%Q) /\
  (exists g, dc_gain (mk_StateSpace (rows [[1; 14]; [0; 5]]%Q) (rows [[16]; [6]]%Q)
                                    (rows [[3; 28]]%Q) (rows [[32]]%Q) 1 1 None) = Ok g /\
             to_rows g = [[4 # 5]]%Q).
Proof.
  split; (eexists (value_or _ (zeros 0 0)); split; [returns | vm_compute; reflexivity]).
Qed.

(** ** Feedback around a compensator whose outputs do not fit *)


(** What the code returns there. *)
Example feedback_pseudo_inverse :
  exists F s,
    feedback_F (siso 0 1 1 1 None) two_output_gain 1 = Ok F /\
    to_rows F = [[0]; [0]]%Q /\
    feedback (siso 0 1 1 1 None) two_output_gain 1 = Ok s /\
    nrows (A s) = 2 /\ inputs s = 1 /\ outputs s = 1.
Proof.
  eexists (value_or _ (zeros 0 0)). eexists (value_or _ no_model).
  split; [returns |]. split; [vm_compute; reflexivity |].
  split; [returns |]. repeat split; vm_compute; reflexivity.
Qed.

(** ** Pole placement at concrete systems *)



(** What the code returns on the two systems. *)
Example place_uncontrollable :
  exists ctrb K,
    controllability uncontrollable_two_inputs = Ok ctrb /\
    to_rows ctrb = [[1; 1; 1; 1]; [0; 0; 0; 0]]%Q /\
    place uncontrollable_two_inputs [-1; -2]%Q = Ok K /\
    to_rows K = [[3 # 2; 3 # 4]]%Q.
Proof.
  eexists (value_or _ (zeros 0 0)). eexists (value_or _ (zeros 0 0)).
  split; [returns |]. split; [vm_compute; reflexivity |].
  split; [returns | vm_compute; reflexivity].
Qed.

(** The gain that [place] returns for the poles -1 and -2 on the test
    system is [[-1, 3/2]]: the coefficients [3, 2] of (s + 1)(s + 2) are
    added to the last row [-4, -1/2] of the companion form in the order
    [3, 2], the reversal of line 253 being undone in line 255.  The
    closed loop A - B K = [[0, 1], [-3, -2]] has the characteristic
    polynomial s^2 + 2 s + 3, and -1 is not a pole of it:
    det(-I - (A - B K)) = 2. *)
Example place_reversed_coefficients :
  exists K BK closed,
    place (test_ss None) [-1; -2]%Q = Ok K /\
    to_rows K = [[-1; 3 # 2]]%Q /\
    dot test_B K = Ok BK /\ msub test_A BK = Ok closed /\
    to_rows closed = [[0; 1]; [-3; -2]]%Q /\
    det 2 (entry (difference_of (neg (eye 2)) closed)) = 2%Q.
Proof.
  eexists (value_or _ (zeros 0 0)). eexists (value_or _ (zeros 0 0)).
  eexists (value_or _ (zeros 0 0)).
  split; [returns |]. split; [vm_compute; reflexivity |].
  split; [returns |]. split; [returns |].
  split; vm_compute; reflexivity.
Qed.

(** The gain that the single pole gives. *)
Example place_single_pole :
  exists g, place (test_ss None) [-1]%Q = Ok g /\ to_rows g = [[-3; 1 # 2]]%Q.
Proof.
  eexists (value_or _ (zeros 0 0)). split; [returns | vm_compute; reflexivity].
Qed.

(** * Further properties of the module *)

(** Inverts every [bind] of a computation that returned. *)
Ltac peel_binds H :=
  repeat (cbv beta in H;
          match type of H with
          | bind _ _ = Ok _ => apply bind_Ok_inv in H as (? & _ & H)
          end).

Section Operators.

Context {R : Type} `{Scalar R} `{Linalg R}.
Variable TransferFunction : Type.
Variable tf2ss : TransferFunction -> result (StateSpace R).

(** X1.  Whatever the operands are, a model that the negation, the sum,
    the product of two models, the feedback connection, the dual system
    or the factory [ss] on a model or on four arrays returns satisfies
    the four shape rules of the constructor, and its input and output
    counts are the columns of its B and the rows of its C. *)
Theorem operators_keep_shape_rules :
  (forall self s, StateSpace_neg self = Ok s -> constructed s) /\
  (forall self other s, StateSpace_add self other = Ok s -> constructed s) /\
  (forall self other s,
      StateSpace_mul tf2ss self (Model other) = Ok s -> constructed s) /\
  (forall self k sign s, feedback self k sign = Ok s -> constructed s) /\
  (forall sys_ s, dual_system sys_ = Ok s -> constructed s) /\
  (forall sys_ t s, ss tf2ss (OneArg (AModel sys_)) t = Ok s -> constructed s) /\
  (forall a b c d t s, ss tf2ss (FourArgs a b c d) t = Ok s -> constructed s).
Proof.
  repeat apply conj.
  - intros self s Hs. apply StateSpace_init_constructed in Hs. apply Hs.
  - intros self other s Hs. unfold StateSpace_add in Hs.
    destruct (negb _); [discriminate |]. peel_binds Hs.
    apply StateSpace_init_constructed in Hs. apply Hs.
  - intros self other s Hs. unfold StateSpace_mul in Hs. cbn [bind] in Hs.
    destruct (negb _); [discriminate |]. peel_binds Hs.
    apply StateSpace_init_constructed in Hs. apply Hs.
  - intros self k sign s Hs. unfold feedback in Hs. cbv zeta in Hs. peel_binds Hs.
    apply StateSpace_init_constructed in Hs. apply Hs.
  - intros sys_ s Hs. apply StateSpace_init_constructed in Hs. apply Hs.
  - intros sys_ t s Hs. apply StateSpace_init_constructed in Hs. apply Hs.
  - intros a b c d t s Hs. apply StateSpace_init_constructed in Hs. apply Hs.
Qed.

(** X2.  A number given for D is accepted exactly for a system with one
    input and one output: the constructor makes it a 1 x 1 matrix, and
    succeeds if and only if A is square, B has the rows of A and one
    column, and C has the columns of A and one row. *)
Theorem StateSpace_init_scalar_D (a b c : matrix R) (d : R) (t : option R) :
  (exists s, StateSpace_init (Mat a) (Mat b) (Mat c) (Num d) t = Ok s)
  <-> nrows a = ncols a /\ nrows b = nrows a /\ ncols c = nrows a /\
      nrows c = 1 /\ ncols b = 1.
Proof.
  unfold StateSpace_init. cbn [np_mat bind].
  destruct (nrows a =? ncols a) eqn:Ha; cbn [negb].
  2: { apply Nat.eqb_neq in Ha. split; [intros (s & Hs); discriminate | tauto]. }
  destruct (nrows b =? nrows a) eqn:Hb; cbn [negb].
  2: { apply Nat.eqb_neq in Hb. split; [intros (s & Hs); discriminate | tauto]. }
  destruct (ncols c =? nrows a) eqn:Hc; cbn [negb].
  2: { apply Nat.eqb_neq in Hc. split; [intros (s & Hs); discriminate | tauto]. }
  apply Nat.eqb_eq in Ha, Hb, Hc.
  destruct (shape_eqb _ _) eqn:Hd; cbn [negb].
  - apply shape_eqb_eq in Hd. unfold shape in Hd. cbn [nrows ncols] in Hd.
    injection Hd as Hd1 Hd2. split; [intros _; auto | intros _; eexists; reflexivity].
  - apply shape_eqb_neq in Hd. unfold shape in Hd. cbn [nrows ncols] in Hd.
    split; [intros (s & Hs); discriminate |].
    intros (_ & _ & _ & Hc1 & Hb1). exfalso. apply Hd. congruence.
Qed.

(** X3.  The dual of a model is always defined; it has the inputs of the
    model as outputs and its outputs as inputs, the same state order and
    the same sampling time, and the dual of the dual is the model
    itself. *)
Theorem dual_system_involution (sys_ : StateSpace R) :
  constructed sys_ ->
  exists d, dual_system sys_ = Ok d /\
            inputs d = outputs sys_ /\ outputs d = inputs sys_ /\
            nrows (A d) = nrows (A sys_) /\ dt d = dt sys_ /\
            dual_system d = Ok sys_.
Proof.
  destruct sys_ as [[ra ca fa] [rb cb fb] [rc cc fc] [rd cd fd] i o t].
  unfold constructed. cbn [A B C D inputs outputs dt nrows ncols].
  intros (Ha & Hb & Hc & Hd1 & Hd2 & Hi & Ho). subst.
  unfold dual_system. cbn [A B C D dt].
  rewrite StateSpace_init_Ok by reflexivity.
  eexists. split; [reflexivity |].
  cbn [A B C D inputs outputs dt nrows ncols transpose].
  repeat (split; [reflexivity |]).
  rewrite StateSpace_init_Ok by reflexivity. reflexivity.
Qed.

(** X4.  The negation of a model is always defined and keeps A, B, the
    input and output counts and the sampling time; negating twice gives
    back the matrices of the model, C and D entry by entry, when the
    negation of scalars is an involution. *)
Theorem StateSpace_neg_involution (self : StateSpace R) :
  (forall x : R, sopp (sopp x) = x) ->
  constructed self ->
  exists s1 s2,
    StateSpace_neg self = Ok s1 /\ StateSpace_neg s1 = Ok s2 /\
    A s1 = A self /\ B s1 = B self /\ C s1 = neg (C self) /\ D s1 = neg (D self) /\
    inputs s1 = inputs self /\ outputs s1 = outputs self /\ dt s1 = dt self /\
    A s2 = A self /\ B s2 = B self /\
    mat_eq (C s2) (C self) /\ mat_eq (D s2) (D self) /\ dt s2 = dt self.
Proof.
  intros Hopp (Ha & Hb & Hc & Hd1 & Hd2 & Hi & Ho).
  unfold StateSpace_neg.
  rewrite StateSpace_init_Ok by (cbn [nrows ncols neg]; assumption).
  eexists. eexists. split; [reflexivity |].
  cbn [A B C D dt].
  rewrite StateSpace_init_Ok by (cbn [nrows ncols neg]; assumption).
  split; [reflexivity |].
  cbn [A B C D inputs outputs dt nrows ncols neg].
  repeat (split; [first [reflexivity | congruence] |]).
  split; [| split; [| reflexivity]].
  - repeat split. intros i j Hi' Hj'. cbn [entry]. apply Hopp.
  - repeat split. intros i j Hi' Hj'. cbn [entry]. apply Hopp.
Qed.

End Operators.

Section Analysis.

Context {R : Type} `{Scalar R} `{Linalg R}.

(** The loop of [controllability], started after [a] blocks: it keeps the
    columns it was given and appends the block A^i * B for each i. *)
Lemma controllability_loop_blocks (self : StateSpace R) (len a : nat) (tmp : matrix R) :
  constructed self -> nrows tmp = nrows (A self) ->
  ncols tmp = a * ncols (B self) ->
  exists ctrb,
    controllability_loop self (seq a len) tmp = Ok ctrb /\
    nrows ctrb = nrows (A self) /\
    ncols ctrb = (a + len) * ncols (B self) /\
    (forall r j, j < a * ncols (B self) -> entry ctrb r j = entry tmp r j) /\
    (forall r i c, a <= i < a + len -> c < ncols (B self) ->
                   entry ctrb r (i * ncols (B self) + c)
                   = entry (mprod (mpow (A self) i) (B self)) r c).
Proof.
  intros Hself. pose proof Hself as (Ha & Hb & _).
  revert a tmp. induction len as [| len IH]; intros a tmp Hr Hc.
  - exists tmp. cbn [seq controllability_loop].
    split; [reflexivity |]. split; [exact Hr |].
    split; [rewrite Hc; f_equal; lia |]. split; [reflexivity |].
    intros r i c Hi. lia.
  - cbn [seq controllability_loop].
    rewrite matrix_power_square by exact Ha. cbn [bind].
    destruct (@shape_mpow R _ (A self) a Ha) as [Hpr Hpc].
    rewrite dot_aligned by lia. cbn [bind].
    rewrite concatenate_columns by (cbn [nrows mprod]; lia). cbn [bind].
    destruct (IH (S a) (hstack tmp (mprod (mpow (A self) a) (B self))))
      as (ctrb & Ec & Hcr & Hcc & Hkeep & Hblock).
    + cbn [nrows hstack]. exact Hr.
    + cbn [ncols hstack mprod]. rewrite Hc. simpl. lia.
    + exists ctrb. split; [exact Ec |]. split; [exact Hcr |].
      split; [rewrite Hcc; f_equal; lia |]. split.
      * intros r j Hj. rewrite Hkeep by (simpl; lia).
        cbn [entry hstack]. rewrite Hc.
        destruct (Nat.ltb_spec j (a * ncols (B self))); [reflexivity | lia].
      * intros r i c Hi Hcm.
        destruct (Nat.eq_dec i a) as [-> | Hne].
        -- rewrite Hkeep by (simpl; lia). cbn [entry hstack]. rewrite Hc.
           destruct (Nat.ltb_spec (a * ncols (B self) + c) (a * ncols (B self)));
             [lia |].
           f_equal. lia.
        -- apply Hblock; lia.
Qed.

(** X5.  The controllability matrix of a model with n states and m inputs
    is always defined; it has n rows and m * max(n, 1) columns, its first
    m columns are B and, for 1 <= i < n, its columns i*m .. i*m + m - 1
    are the matrix A^i * B. *)
Theorem controllability_blocks (self : StateSpace R) :
  constructed self ->
  exists ctrb,
    controllability self = Ok ctrb /\
    nrows ctrb = nrows (A self) /\
    ncols ctrb = ncols (B self) * Nat.max (nrows (A self)) 1 /\
    (forall r c, c < ncols (B self) -> entry ctrb r c = entry (B self) r c) /\
    (forall r i c, 1 <= i < nrows (A self) -> c < ncols (B self) ->
                   entry ctrb r (i * ncols (B self) + c)
                   = entry (mprod (mpow (A self) i) (B self)) r c).
Proof.
  intros Hself. unfold controllability.
  destruct (@controllability_loop_blocks self (nrows (A self) - 1) 1 (B self) Hself)
    as (ctrb & Ec & Hr & Hc & Hkeep & Hblock); [apply Hself | lia |].
  exists ctrb. split; [exact Ec |]. split; [exact Hr |].
  split; [rewrite Hc; nia |]. split.
  - intros r c Hcm. apply Hkeep. lia.
  - intros r i c Hi Hcm. apply Hblock; lia.
Qed.

(** The loop of [observability], started after [a] blocks. *)
Lemma observability_loop_blocks (self : StateSpace R) (len a : nat) (tmp : matrix R) :
  constructed self -> ncols tmp = nrows (A self) ->
  nrows tmp = a * nrows (C self) ->
  exists obsv,
    observability_loop self (seq a len) tmp = Ok obsv /\
    ncols obsv = nrows (A self) /\
    nrows obsv = (a + len) * nrows (C self) /\
    (forall j c, j < a * nrows (C self) -> entry obsv j c = entry tmp j c) /\
    (forall r i c, a <= i < a + len -> r < nrows (C self) ->
                   entry obsv (i * nrows (C self) + r) c
                   = entry (mprod (C self) (mpow (A self) i)) r c).
Proof.
  intros Hself. pose proof Hself as (Ha & _ & Hcc & _).
  revert a tmp. induction len as [| len IH]; intros a tmp Hc Hr.
  - exists tmp. cbn [seq observability_loop].
    split; [reflexivity |]. split; [exact Hc |].
    split; [rewrite Hr; f_equal; lia |]. split; [reflexivity |].
    intros r i c Hi. lia.
  - cbn [seq observability_loop].
    rewrite matrix_power_square by exact Ha. cbn [bind].
    destruct (@shape_mpow R _ (A self) a Ha) as [Hpr Hpc].
    rewrite dot_aligned by lia. cbn [bind].
    rewrite concatenate_rows by (cbn [ncols mprod]; lia). cbn [bind].
    destruct (IH (S a) (vstack tmp (mprod (C self) (mpow (A self) a))))
      as (obsv & Eo & Hoc & Hor & Hkeep & Hblock).
    + cbn [ncols vstack]. exact Hc.
    + cbn [nrows vstack mprod]. rewrite Hr. simpl. lia.
    + exists obsv. split; [exact Eo |]. split; [exact Hoc |].
      split; [rewrite Hor; f_equal; lia |]. split.
      * intros j c Hj. rewrite Hkeep by (simpl; lia).
        cbn [entry vstack]. rewrite Hr.
        destruct (Nat.ltb_spec j (a * nrows (C self))); [reflexivity | lia].
      * intros r i c Hi Hrp.
        destruct (Nat.eq_dec i a) as [-> | Hne].
        -- rewrite Hkeep by (simpl; lia). cbn [entry vstack]. rewrite Hr.
           destruct (Nat.ltb_spec (a * nrows (C self) + r) (a * nrows (C self)));
             [lia |].
           f_equal. lia.
        -- apply Hblock; lia.
Qed.

(** X6.  The observability matrix of a model with n states and p outputs
    is always defined; it has n columns and p * max(n, 1) rows, its first
    p rows are C and, for 1 <= i < n, its rows i*p .. i*p + p - 1 are the
    matrix C * A^i. *)
Theorem observability_blocks (self : StateSpace R) :
  constructed self ->
  exists obsv,
    observability self = Ok obsv /\
    ncols obsv = nrows (A self) /\
    nrows obsv = nrows (C self) * Nat.max (nrows (A self)) 1 /\
    (forall r c, r < nrows (C self) -> entry obsv r c = entry (C self) r c) /\
    (forall r i c, 1 <= i < nrows (A self) -> r < nrows (C self) ->
                   entry obsv (i * nrows (C self) + r) c
                   = entry (mprod (C self) (mpow (A self) i)) r c).
Proof.
  intros Hself. unfold observability.
  destruct (@observability_loop_blocks self (nrows (A self) - 1) 1 (C self) Hself)
    as (obsv & Eo & Hc & Hr & Hkeep & Hblock); [apply Hself | lia |].
  exists obsv. split; [exact Eo |]. split; [exact Hc |].
  split; [rewrite Hr; nia |]. split.
  - intros r c Hrp. apply Hkeep. lia.
  - intros r i c Hi Hrp. apply Hblock; lia.
Qed.

(** *** Pole placement reads A and B only *)

Lemma controllability_loop_ext (s1 s2 : StateSpace R) (range : list nat) (tmp : matrix R) :
  A s1 = A s2 -> B s1 = B s2 ->
  controllability_loop s1 range tmp = controllability_loop s2 range tmp.
Proof.
  intros HA HB. revert tmp. induction range as [| i range IH]; intros tmp;
    cbn [controllability_loop]; [reflexivity |].
  rewrite HA, HB.
  destruct (matrix_power (A s2) i) as [Ai | e]; cbn [bind]; [| reflexivity].
  destruct (dot Ai (B s2)) as [AiB | e]; cbn [bind]; [| reflexivity].
  destruct (concatenate 1 tmp AiB) as [tmp' | e]; cbn [bind]; [| reflexivity].
  apply IH.
Qed.

Lemma to_controllable_form_ext (s1 s2 : StateSpace R) :
  A s1 = A s2 -> B s1 = B s2 ->
  to_controllable_form s1 = to_controllable_form s2.
Proof.
  intros HA HB. unfold to_controllable_form, controllability.
  rewrite (@controllability_loop_ext s1 s2 _ _ HA HB), HA, HB. reflexivity.
Qed.

Lemma place_ext (s1 s2 : StateSpace R) (poles : list R) :
  A s1 = A s2 -> B s1 = B s2 -> place s1 poles = place s2 poles.
Proof.
  intros HA HB. unfold place.
  rewrite (@to_controllable_form_ext s1 s2 HA HB), HA. reflexivity.
Qed.

(** X7.  The controllability matrix, the transformation to controllable
    form and the gain of [place] depend on the matrices A and B of the
    model only: two models with the same A and B give the same results,
    whatever their C, D and sampling times are. *)
Theorem place_reads_A_and_B (s1 s2 : StateSpace R) :
  A s1 = A s2 -> B s1 = B s2 ->
  controllability s1 = controllability s2 /\
  to_controllable_form s1 = to_controllable_form s2 /\
  forall poles, place s1 poles = place s2 poles.
Proof.
  intros HA HB. split; [| split].
  - unfold controllability. rewrite (@controllability_loop_ext s1 s2 _ _ HA HB), HA, HB.
    reflexivity.
  - apply to_controllable_form_ext; assumption.
  - intros poles. apply place_ext; assumption.
Qed.

(** X8.  The function [place(A, B, poles)] fails with a shape error of the
    constructor when A is not square or B has not the rows of A, and
    otherwise returns what the method [place] returns on any model with
    these A and B. *)
Theorem place_function_is_method (a b : matrix R) (poles : list R) :
  (nrows a <> ncols a \/ nrows b <> nrows a ->
   exists e, place_function (Mat a) (Mat b) poles = Raise e /\ ShapeMismatch e) /\
  (forall self, constructed self -> A self = a -> B self = b ->
                place_function (Mat a) (Mat b) poles = place self poles).
Proof.
  unfold place_function. cbn [np_mat bind]. cbv zeta. split.
  - intros Hbad. unfold StateSpace_init. cbn [np_mat bind].
    destruct (nrows a =? ncols a) eqn:Ha; cbn [negb].
    2: { eexists. split; [reflexivity |]. simpl. tauto. }
    destruct (nrows b =? nrows a) eqn:Hb; cbn [negb].
    2: { eexists. split; [reflexivity |]. simpl. tauto. }
    apply Nat.eqb_eq in Ha, Hb. exfalso. destruct Hbad; contradiction.
  - intros self (Ha & Hb & _) <- <-.
    rewrite StateSpace_init_Ok by (try assumption; reflexivity). cbn [bind].
    apply place_ext; reflexivity.
Qed.

End Analysis.

Section Connections.

Context {R : Type} `{Scalar R} `{Linalg R}.
Variable TransferFunction : Type.
Variable tf2ss : TransferFunction -> result (StateSpace R).

(** *** Shapes of the results of the array operations *)

Lemma dot_Ok_shape (a b m : matrix R) :
  dot a b = Ok m -> ncols a = nrows b /\ nrows m = nrows a /\ ncols m = ncols b.
Proof.
  unfold dot. destruct (ncols a =? nrows b) eqn:E; [| discriminate].
  apply Nat.eqb_eq in E. intros Hm. injection Hm as <-. repeat split. exact E.
Qed.

Lemma broadcast2_Ok_shape (f : R -> R -> R) (a b m : matrix R) :
  broadcast2 f a b = Ok m ->
  nrows m = bdim (nrows a) (nrows b) /\ ncols m = bdim (ncols a) (ncols b).
Proof.
  unfold broadcast2. destruct (_ && _); [| discriminate].
  intros Hm. injection Hm as <-. split; reflexivity.
Qed.

Lemma bdim_same (d : nat) : bdim d d = d.
Proof. unfold bdim. destruct (d =? 1); reflexivity. Qed.

Lemma concatenate_0_Ok_shape (a b m : matrix R) :
  concatenate 0 a b = Ok m -> nrows m = nrows a + nrows b /\ ncols m = ncols a.
Proof.
  cbn [concatenate]. destruct (ncols a =? ncols b); [| discriminate].
  intros Hm. injection Hm as <-. split; reflexivity.
Qed.

Lemma concatenate_1_Ok_shape (a b m : matrix R) :
  concatenate 1 a b = Ok m -> nrows m = nrows a /\ ncols m = ncols a + ncols b.
Proof.
  cbn [concatenate]. destruct (nrows a =? nrows b); [| discriminate].
  intros Hm. injection Hm as <-. split; reflexivity.
Qed.

Lemma StateSpace_init_Mat_inv (a b c d : matrix R) (t : option R) (s : StateSpace R) :
  StateSpace_init (Mat a) (Mat b) (Mat c) (Mat d) t = Ok s ->
  s = mk_StateSpace a b c d (ncols b) (nrows c) t.
Proof.
  unfold StateSpace_init. cbn [np_mat bind]. intros Hs.
  repeat match type of Hs with
         | (if ?g then _ else _) = _ => destruct g; [discriminate |]
         end.
  injection Hs as <-. reflexivity.
Qed.

(** X9.  The feedback connection of a model with a compensator [k] that
    has not as many inputs as the model has outputs fails with the
    shape error of the matrix product, whatever the sign is, before any
    matrix is inverted.  Every model that [feedback] returns has the
    input and output counts of [self], the states of [self] and of [k]
    together, and no sampling time. *)
Theorem feedback_ports (self k : StateSpace R) (sign : Z) :
  constructed self -> constructed k ->
  (inputs k <> outputs self ->
   feedback self k sign = Raise (ValueError "shapes not aligned")) /\
  (forall s, feedback self k sign = Ok s ->
             inputs k = outputs self /\
             inputs s = inputs self /\ outputs s = outputs self /\
             nrows (A s) = nrows (A self) + nrows (A k) /\
             dt s = None).
Proof.
  intros (Ha1 & Hb1 & Hc1 & Hd1 & Hd1' & Hi1 & Ho1)
         (Ha2 & Hb2 & Hc2 & Hd2 & Hd2' & Hi2 & Ho2).
  split.
  - intros Hne. unfold feedback, feedback_F.
    rewrite dot_not_aligned by (cbn [ncols scale]; lia). reflexivity.
  - intros s Hs. unfold feedback in Hs. cbv zeta in Hs.
    apply bind_Ok_inv in Hs as (F & EF & Hs).
    apply bind_Ok_inv in Hs as (F_inv & _ & Hs).
    apply bind_Ok_inv in Hs as (F_inv_D2 & E1 & Hs).
    apply bind_Ok_inv in Hs as (F_inv_C2 & E2 & Hs).
    apply bind_Ok_inv in Hs as (F_inv_D2_C1 & E3 & Hs).
    apply bind_Ok_inv in Hs as (F_inv_D2_D1 & E4 & Hs).
    apply bind_Ok_inv in Hs as (t1 & Et1 & Hs).
    apply bind_Ok_inv in Hs as (A1 & EA1 & Hs).
    apply bind_Ok_inv in Hs as (A2 & EA2 & Hs).
    apply bind_Ok_inv in Hs as (t3 & Et3 & Hs).
    apply bind_Ok_inv in Hs as (t3' & Et3' & Hs).
    apply bind_Ok_inv in Hs as (A3 & EA3 & Hs).
    apply bind_Ok_inv in Hs as (t4 & Et4 & Hs).
    apply bind_Ok_inv in Hs as (t4' & Et4' & Hs).
    apply bind_Ok_inv in Hs as (A4 & EA4 & Hs).
    apply bind_Ok_inv in Hs as (left & Eleft & Hs).
    apply bind_Ok_inv in Hs as (right & Eright & Hs).
    apply bind_Ok_inv in Hs as (A' & EA' & Hs).
    apply bind_Ok_inv in Hs as (u1 & Eu1 & Hs).
    apply bind_Ok_inv in Hs as (B1 & EB1 & Hs).
    apply bind_Ok_inv in Hs as (u2 & Eu2 & Hs).
    apply bind_Ok_inv in Hs as (u3 & Eu3 & Hs).
    apply bind_Ok_inv in Hs as (u3' & Eu3' & Hs).
    apply bind_Ok_inv in Hs as (B2 & EB2 & Hs).
    apply bind_Ok_inv in Hs as (B' & EB' & Hs).
    apply bind_Ok_inv in Hs as (v1 & Ev1 & Hs).
    apply bind_Ok_inv in Hs as (C1 & EC1 & Hs).
    apply bind_Ok_inv in Hs as (C2 & EC2 & Hs).
    apply bind_Ok_inv in Hs as (C' & EC' & Hs).
    apply bind_Ok_inv in Hs as (w1 & Ew1 & Hs).
    apply bind_Ok_inv in Hs as (D' & ED' & Hs).
    apply StateSpace_init_Mat_inv in Hs. subst s.
    cbn [A B C D inputs outputs dt].
    unfold feedback_F in EF. apply bind_Ok_inv in EF as (P & EP & _).
    apply dot_Ok_shape in EP as (HP & _). cbn [ncols scale] in HP.
    apply dot_Ok_shape in E3 as (_ & _ & H3c).
    apply dot_Ok_shape in E4 as (_ & _ & H4c).
    apply dot_Ok_shape in Et1 as (_ & Ht1r & _). cbn [nrows scale] in Ht1r.
    apply broadcast2_Ok_shape in EA1 as (HA1r & _). rewrite Ht1r, Hb1, bdim_same in HA1r.
    apply dot_Ok_shape in EA3 as (_ & HA3r & _).
    apply concatenate_0_Ok_shape in Eleft as (Hlr & _).
    apply concatenate_1_Ok_shape in EA' as (HA'r & _).
    apply dot_Ok_shape in Eu1 as (_ & _ & Hu1c).
    apply broadcast2_Ok_shape in EB1 as (_ & HB1c).
    rewrite Hu1c, H4c, Hd1', bdim_same in HB1c.
    apply concatenate_0_Ok_shape in EB' as (_ & HB'c).
    apply dot_Ok_shape in Ev1 as (_ & Hv1r & _). cbn [nrows scale] in Hv1r.
    apply broadcast2_Ok_shape in EC1 as (HC1r & _).
    rewrite Hv1r, Hd1, bdim_same in HC1r.
    apply concatenate_1_Ok_shape in EC' as (HC'r & _).
    repeat split; lia.
Qed.

(** X10.  The factory [ss] called on a model returns a model with the
    same four matrices, the same input and output counts and the same
    sampling time; a keyword [dt] given with it is not looked at. *)
Theorem ss_copies_model (sys_ : StateSpace R) (kw_dt : option R) :
  constructed sys_ -> ss tf2ss (OneArg (AModel sys_)) kw_dt = Ok sys_.
Proof.
  destruct sys_ as [a b c d i o t]. unfold constructed.
  cbn [A B C D inputs outputs dt ss].
  intros (Ha & Hb & Hc & Hd1 & Hd2 & Hi & Ho).
  rewrite StateSpace_init_Ok by assumption. subst i o. reflexivity.
Qed.

(** *** Equality of models *)

Lemma elementwise_equal_refl (a : matrix R) :
  (forall x : R, seqb x x = true) -> elementwise_equal a a.
Proof. intros Hr. repeat split. intros i j _ _. apply Hr. Qed.

Lemma elementwise_equal_sym (a b : matrix R) :
  (forall x y : R, seqb x y = seqb y x) ->
  elementwise_equal a b -> elementwise_equal b a.
Proof.
  intros Hs (Hr & Hc & He). split; [congruence |]. split; [congruence |].
  intros i j Hi Hj. rewrite Hs. apply He; congruence.
Qed.

Lemma elementwise_equal_trans (a b c : matrix R) :
  (forall x y z : R, seqb x y = true -> seqb y z = true -> seqb x z = true) ->
  elementwise_equal a b -> elementwise_equal b c -> elementwise_equal a c.
Proof.
  intros Ht (Hr & Hc & He) (Hr' & Hc' & He').
  split; [congruence |]. split; [congruence |].
  intros i j Hi Hj. apply Ht with (y := entry b i j);
    [apply He | apply He']; congruence.
Qed.

Lemma array_equal_sym (a b : matrix R) :
  (forall x y : R, seqb x y = seqb y x) -> array_equal a b = array_equal b a.
Proof.
  intros Hs. apply eq_true_iff_eq. rewrite !array_equal_elementwise.
  split; apply elementwise_equal_sym; exact Hs.
Qed.

(** X11.  When [==] on the entries is reflexive, symmetric and transitive,
    so is [==] on models, and [!=] is its negation. *)
Theorem StateSpace_eq_equivalence :
  (forall x : R, seqb x x = true) ->
  (forall x y : R, seqb x y = seqb y x) ->
  (forall x y z : R, seqb x y = true -> seqb y z = true -> seqb x z = true) ->
  (forall s : StateSpace R, StateSpace_eq s s = true) /\
  (forall s1 s2 : StateSpace R, StateSpace_eq s1 s2 = StateSpace_eq s2 s1) /\
  (forall s1 s2 s3 : StateSpace R,
      StateSpace_eq s1 s2 = true -> StateSpace_eq s2 s3 = true ->
      StateSpace_eq s1 s3 = true) /\
  (forall s1 s2 : StateSpace R, StateSpace_ne s1 s2 = negb (StateSpace_eq s1 s2)).
Proof.
  intros Hr Hs Ht. repeat apply conj.
  - intros s. unfold StateSpace_eq.
    rewrite !(proj2 (array_equal_elementwise _ _) (elementwise_equal_refl _ Hr)).
    reflexivity.
  - intros s1 s2. unfold StateSpace_eq.
    rewrite (array_equal_sym (A s1) (A s2) Hs), (array_equal_sym (B s1) (B s2) Hs),
      (array_equal_sym (C s1) (C s2) Hs), (array_equal_sym (D s1) (D s2) Hs).
    reflexivity.
  - intros s1 s2 s3. unfold StateSpace_eq.
    rewrite !andb_true_iff, !array_equal_elementwise.
    intros [[[Ha Hb] Hc] Hd] [[[Ha' Hb'] Hc'] Hd'].
    repeat split; eapply elementwise_equal_trans; eassumption.
  - intros s1 s2. unfold StateSpace_ne. destruct (StateSpace_eq s1 s2); reflexivity.
Qed.

(** X12.  [place] never returns a gain for an empty list of poles; when
    the transformation to controllable form is computed and inverted, the
    error is the [TypeError] of indexing the float that [np.poly] returns
    for an empty sequence. *)
Theorem place_without_poles (self : StateSpace R) :
  (forall K, place self [] <> Ok K) /\
  (constructed self -> 1 <= nrows (A self) -> inv_keeps_shape ->
   forall T TI, to_controllable_form self = Ok T -> getI T = Ok TI ->
                place self [] = Raise (TypeError "'float' object is not subscriptable")).
Proof.
  split.
  - intros K HK. unfold place in HK.
    apply bind_Ok_inv in HK as (T & _ & HK).
    apply bind_Ok_inv in HK as (TI & _ & HK).
    apply bind_Ok_inv in HK as (TIA & _ & HK).
    apply bind_Ok_inv in HK as (A' & _ & HK).
    apply bind_Ok_inv in HK as (p & Hp & _).
    discriminate Hp.
  - intros Hself Hn Hinv T TI ET ETI.
    destruct (to_controllable_form_shape Hself Hn Hinv ET) as [HTr HTc].
    assert (HTI : nrows TI = nrows (A self) /\ ncols TI = nrows (A self)).
    { unfold getI in ETI. rewrite HTr, HTc, Nat.eqb_refl in ETI.
      apply Hinv in ETI. lia. }
    destruct HTI as [HIr HIc]. pose proof Hself as (Ha & _).
    unfold place. rewrite ET. cbn [bind]. rewrite ETI. cbn [bind].
    rewrite dot_aligned by lia. cbn [bind].
    rewrite dot_aligned by (cbn [ncols mprod]; lia). cbn [bind].
    reflexivity.
Qed.

End Connections.

(** ** The Lyapunov solver, continued *)

Section LyapunovSolution.

Context {R : Type} `{Scalar R}.
Variable is_ctime : StateSpace R -> bool.
Variable sym_solve :
  ((string -> R) -> result (matrix R)) -> list string -> list (string * R).

(** X13.  With a solver whose answers satisfy the equations it is given,
    a matrix X that [lyapunov] returns for a model with n states is
    n x n, symmetric, and solves the equation of the model:
    A^T X + X A + I = 0 for a continuous-time model and
    A^T X A - X + I = 0 for a discrete-time one. *)
Theorem lyapunov_returns_solution (sys_ : StateSpace R) (X : matrix R) :
  solver_sound sym_solve ->
  lyapunov is_ctime sym_solve sys_ = Ok (Some X) ->
  nrows X = nrows (A sys_) /\ ncols X = nrows (A sys_) /\
  (forall i j, i < nrows (A sys_) -> j < nrows (A sys_) -> entry X i j = entry X j i) /\
  exists Z, lyapunov_lhs (is_ctime sys_) (A sys_) X = Ok Z /\ all_zero Z.
Proof.
  intros Hsound HX. unfold lyapunov in HX. cbv zeta in HX.
  pose proof (Hsound (lyapunov_equation (is_ctime sys_) sys_)
                (lyapunov_unknowns (nrows (A sys_)))) as Hs.
  destruct (sym_solve (lyapunov_equation (is_ctime sys_) sys_)
              (lyapunov_unknowns (nrows (A sys_)))) as [| p ps]; [discriminate |].
  destruct (forallb _ _); [| discriminate].
  injection HX as <-.
  split; [reflexivity |]. split; [reflexivity |]. split.
  - intros i j Hi Hj. apply lyapunov_subs_symmetric; assumption.
  - apply Hs. discriminate.
Qed.

End LyapunovSolution.

Lemma all_zerob_all_zero (Z : matrix Q) : all_zerob Z = true -> all_zero Z.
Proof.
  unfold all_zerob, all_zero. rewrite forallb_forall. intros Hall i j Hi Hj.
  assert (Hrow := Hall i (proj2 (in_seq _ _ _) (conj (Nat.le_0_l i) Hi))).
  rewrite forallb_forall in Hrow.
  assert (Hz := Hrow j (proj2 (in_seq _ _ _) (conj (Nat.le_0_l j) Hj))).
  unfold is_zero_Q in Hz. apply andb_true_iff in Hz as [Hn Hd].
  apply Z.eqb_eq in Hn. apply Pos.eqb_eq in Hd.
  destruct (entry Z i j) as [n d]. simpl in Hn, Hd. subst. reflexivity.
Qed.

Lemma check_candidate_sound (candidate : list (string * Q)) :
  solver_sound (check_candidate candidate).
Proof.
  intros eq unknowns Hne. unfold check_candidate in *.
  destruct (eq (assignment candidate)) as [Z | e] eqn:EZ; [| contradiction].
  destruct (all_zerob Z) eqn:Hz; [| contradiction].
  rewrite EZ. exists Z. split; [reflexivity | apply all_zerob_all_zero; exact Hz].
Qed.

(** *** The names of the unknowns up to 101 states *)

Lemma NoDup_app_disjoint {X : Type} (l1 l2 : list X) (x : X) :
  NoDup (l1 ++ l2) -> In x l1 -> In x l2 -> False.
Proof.
  induction l1 as [| y l1 IH]; simpl; intros Hnd H1 H2; [contradiction |].
  inversion Hnd as [| ? ? Hy Hnd']; subst. destruct H1 as [-> | H1].
  - apply Hy. apply in_or_app. right. exact H2.
  - exact (IH Hnd' H1 H2).
Qed.

Lemma NoDup_app_right {X : Type} (l1 l2 : list X) : NoDup (l1 ++ l2) -> NoDup l2.
Proof.
  induction l1 as [| y l1 IH]; simpl; intros Hnd; [exact Hnd |].
  inversion Hnd; subst. apply IH. assumption.
Qed.

Lemma NoDup_app_left {X : Type} (l1 l2 : list X) : NoDup (l1 ++ l2) -> NoDup l1.
Proof.
  induction l1 as [| y l1 IH]; simpl; intros Hnd; [constructor |].
  inversion Hnd as [| ? ? Hy Hnd']; subst. constructor; [| apply IH; exact Hnd'].
  intros Hin. apply Hy. apply in_or_app. left. exact Hin.
Qed.

Lemma NoDup_map_injective {X Y : Type} (g : X -> Y) (l : list X) (a b : X) :
  NoDup (map g l) -> In a l -> In b l -> g a = g b -> a = b.
Proof.
  induction l as [| x l IH]; simpl; intros Hnd Ha Hb Hg; [contradiction |].
  inversion Hnd as [| ? ? Hx Hnd']; subst.
  destruct Ha as [-> | Ha], Hb as [-> | Hb].
  - reflexivity.
  - exfalso. apply Hx. rewrite Hg. apply in_map. exact Hb.
  - exfalso. apply Hx. rewrite <- Hg. apply in_map. exact Ha.
  - exact (IH Hnd' Ha Hb Hg).
Qed.

Lemma NoDup_flat_map_injective {X Y : Type} (f : X -> list Y) (l : list X)
      (a b : X) (y : Y) :
  NoDup (flat_map f l) -> In a l -> In b l -> In y (f a) -> In y (f b) ->
  a = b /\ NoDup (f a).
Proof.
  induction l as [| x l IH]; simpl; intros Hnd Ha Hb Hya Hyb; [contradiction |].
  destruct Ha as [-> | Ha], Hb as [-> | Hb].
  - split; [reflexivity | exact (NoDup_app_left _ _ Hnd)].
  - exfalso. apply (NoDup_app_disjoint _ _ y Hnd Hya).
    apply in_flat_map. exists b. split; assumption.
  - exfalso. apply (NoDup_app_disjoint _ _ y Hnd Hyb).
    apply in_flat_map. exists a. split; assumption.
  - exact (IH (NoDup_app_right _ _ Hnd) Ha Hb Hya Hyb).
Qed.

(** The 5151 names on and below the diagonal for 101 states are pairwise
    distinct, by comparing them all. *)
Lemma triangle_unknowns_101 : distinctb (triangle_unknowns 101) = true.
Proof. vm_compute. reflexivity. Qed.

Lemma symbol_name_injective_below (j i j' i' : nat) :
  i <= j -> j < 101 -> i' <= j' -> j' < 101 ->
  symbol_name j i = symbol_name j' i' -> j = j' /\ i = i'.
Proof.
  intros Hij Hj Hij' Hj' Heq.
  pose proof (distinctb_NoDup _ triangle_unknowns_101) as Hnd.
  unfold triangle_unknowns in Hnd.
  destruct (@NoDup_flat_map_injective nat string
              (fun j => map (fun i => symbol_name j i) (seq 0 (S j)))
              (seq 0 101) j j' (symbol_name j i) Hnd) as [Hjj Hrow].
  - apply in_seq. lia.
  - apply in_seq. lia.
  - apply in_map_iff. exists i. split; [reflexivity | apply in_seq; lia].
  - apply in_map_iff. exists i'. split; [symmetry; exact Heq | apply in_seq; lia].
  - subst j'. split; [reflexivity |].
    apply (@NoDup_map_injective nat string (fun i => symbol_name j i) (seq 0 (S j)));
      [exact Hrow | apply in_seq; lia | apply in_seq; lia | exact Heq].
Qed.

(** X14.  For a model with at most 101 states, two entries of the symbol
    matrix of [lyapunov] are the same unknown exactly when they are at
    the same position or at positions mirrored across the diagonal: the
    unknowns on and below the diagonal are pairwise distinct. *)
Theorem lyapunov_unknowns_distinct (n j i j' i' : nat) :
  n <= 101 -> j < n -> i < n -> j' < n -> i' < n ->
  (nth i (nth j (lyapunov_symbols n) []) "" = nth i' (nth j' (lyapunov_symbols n) []) ""
   <-> (j = j' /\ i = i') \/ (j = i' /\ i = j')).
Proof.
  intros Hn Hj Hi Hj' Hi'. rewrite !lyapunov_symbols_entry by assumption. split.
  - intros Heq.
    destruct (Nat.le_gt_cases i j) as [Hij | Hij],
             (Nat.le_gt_cases i' j') as [Hij' | Hij'].
    + left. apply symbol_name_injective_below; try assumption; lia.
    + right. rewrite (symbol_name_mirrored j' i') in Heq.
      apply symbol_name_injective_below in Heq; lia.
    + right. rewrite (symbol_name_mirrored j i) in Heq.
      apply symbol_name_injective_below in Heq; lia.
    + left. rewrite (symbol_name_mirrored j i), (symbol_name_mirrored j' i') in Heq.
      apply symbol_name_injective_below in Heq; lia.
  - intros [[-> ->] | [-> ->]]; [reflexivity | apply symbol_name_mirrored].
Qed.

(** ** Duality *)

Section Duality.

Context {R : Type} `{Scalar R}.
Variable L : RingLaws R.

Lemma ring_add_0_r (x : R) : sadd x szero = x.
Proof. rewrite ring_add_comm. apply ring_add_0_l. Qed.

Lemma ring_mul_1_r (x : R) : smul x sone = x.
Proof. rewrite ring_mul_comm. apply ring_mul_1_l. Qed.

Lemma ring_mul_0_r (x : R) : smul x szero = szero.
Proof. rewrite ring_mul_comm. apply ring_mul_0_l. Qed.

Lemma sum_upto_ext (n : nat) (f g : nat -> R) :
  (forall k, k < n -> f k = g k) -> sum_upto n f = sum_upto n g.
Proof.
  induction n as [| n IH]; intros Hfg; cbn [sum_upto]; [reflexivity |].
  rewrite IH by (intros k Hk; apply Hfg; lia). rewrite Hfg by lia. reflexivity.
Qed.

Lemma sum_upto_add (n : nat) (f g : nat -> R) :
  sum_upto n (fun k => sadd (f k) (g k)) = sadd (sum_upto n f) (sum_upto n g).
Proof.
  induction n as [| n IH]; cbn [sum_upto].
  - symmetry. apply ring_add_0_l.
  - rewrite IH. rewrite !ring_add_assoc. f_equal.
    rewrite <- !ring_add_assoc. f_equal. apply ring_add_comm.
Qed.

Lemma sum_upto_szero (n : nat) : sum_upto n (fun _ => szero) = szero.
Proof.
  induction n as [| n IH]; cbn [sum_upto]; [reflexivity |].
  rewrite IH. apply ring_add_0_l.
Qed.

Lemma sum_upto_smul_l (n : nat) (x : R) (f : nat -> R) :
  sum_upto n (fun k => smul x (f k)) = smul x (sum_upto n f).
Proof.
  induction n as [| n IH]; cbn [sum_upto].
  - symmetry. apply ring_mul_0_r.
  - rewrite IH, ring_mul_add_distr_l. reflexivity.
Qed.

Lemma sum_upto_smul_r (n : nat) (x : R) (f : nat -> R) :
  sum_upto n (fun k => smul (f k) x) = smul (sum_upto n f) x.
Proof.
  rewrite (ring_mul_comm (sum_upto n f) x), <- sum_upto_smul_l.
  apply sum_upto_ext. intros k _. apply ring_mul_comm.
Qed.

Lemma sum_upto_exchange (n m : nat) (f : nat -> nat -> R) :
  sum_upto n (fun k => sum_upto m (fun l => f k l))
  = sum_upto m (fun l => sum_upto n (fun k => f k l)).
Proof.
  induction n as [| n IH]; cbn [sum_upto].
  - symmetry. apply sum_upto_szero.
  - rewrite IH.
    rewrite <- (sum_upto_add m (fun l => sum_upto n (fun k => f k l)) (fun l => f n l)).
    reflexivity.
Qed.

(** The sum that picks one term. *)
Lemma sum_upto_pick (n c : nat) (f : nat -> R) :
  c < n -> sum_upto n (fun k => smul (f k) (if k =? c then sone else szero)) = f c.
Proof.
  induction n as [| n IH]; intros Hc; [lia |]. cbn [sum_upto].
  destruct (Nat.eq_dec c n) as [-> | Hne].
  - rewrite Nat.eqb_refl, ring_mul_1_r.
    rewrite (@sum_upto_ext n _ (fun _ => szero)).
    + rewrite sum_upto_szero. apply ring_add_0_l.
    + intros k Hk. destruct (Nat.eqb_spec k n); [lia | apply ring_mul_0_r].
  - rewrite IH by lia. destruct (Nat.eqb_spec n c); [lia |].
    rewrite ring_mul_0_r. apply ring_add_0_r.
Qed.

(** The matrix product is associative, entry by entry. *)
Lemma mprod_assoc (a b c : matrix R) (i j : nat) :
  entry (mprod (mprod a b) c) i j = entry (mprod a (mprod b c)) i j.
Proof.
  cbn [entry mprod ncols].
  rewrite (@sum_upto_ext (ncols b) _
             (fun l => sum_upto (ncols a)
                         (fun k => smul (entry a i k) (smul (entry b k l) (entry c l j))))).
  - rewrite <- sum_upto_exchange. apply sum_upto_ext. intros k _.
    apply sum_upto_smul_l.
  - intros l _. rewrite <- sum_upto_smul_r. apply sum_upto_ext. intros k _.
    apply ring_mul_assoc.
Qed.

Lemma mprod_ext_l (a a' b : matrix R) (i j : nat) :
  ncols a = ncols a' ->
  (forall k, k < ncols a -> entry a i k = entry a' i k) ->
  entry (mprod a b) i j = entry (mprod a' b) i j.
Proof.
  intros Hc He. cbn [entry mprod]. rewrite <- Hc. apply sum_upto_ext.
  intros k Hk. rewrite He by exact Hk. reflexivity.
Qed.

(** The transpose of a product is the product of the transposes in the
    other order. *)
Lemma transpose_mprod (a b : matrix R) (i j : nat) :
  ncols a = nrows b ->
  entry (mprod (transpose b) (transpose a)) i j = entry (mprod a b) j i.
Proof.
  intros Hab. cbn [entry mprod transpose ncols]. rewrite Hab.
  apply sum_upto_ext. intros k _. apply ring_mul_comm.
Qed.

Lemma mprod_eye_r (a : matrix R) (r c : nat) :
  c < ncols a -> entry (mprod a (eye (ncols a))) r c = entry a r c.
Proof.
  intros Hc. cbn [entry mprod eye]. apply (@sum_upto_pick (ncols a) c (entry a r) Hc).
Qed.

Lemma mprod_eye_l (a : matrix R) (r c : nat) :
  r < nrows a -> entry (mprod (eye (nrows a)) a) r c = entry a r c.
Proof.
  intros Hr. cbn [entry mprod eye ncols].
  rewrite (@sum_upto_ext (nrows a) _
             (fun k => smul (entry a k c) (if k =? r then sone else szero))).
  - apply (@sum_upto_pick (nrows a) r (fun k => entry a k c) Hr).
  - intros k _. rewrite ring_mul_comm, (Nat.eqb_sym r k). reflexivity.
Qed.

(** A square matrix commutes with its powers. *)
Lemma mpow_commutes (a : matrix R) (i r c : nat) :
  nrows a = ncols a -> r < nrows a -> c < nrows a ->
  entry (mprod a (mpow a i)) r c = entry (mprod (mpow a i) a) r c.
Proof.
  intros Hsq. revert r c. induction i as [| i IH]; intros r c Hr Hc.
  - cbn [mpow]. rewrite mprod_eye_l by exact Hr.
    rewrite Hsq. apply mprod_eye_r. lia.
  - cbn [mpow]. rewrite <- mprod_assoc.
    destruct (@shape_mpow R _ a i Hsq) as [_ Hpc].
    apply mprod_ext_l; [cbn [ncols mprod]; lia |].
    intros k Hk. cbn [ncols mprod] in Hk.
    apply IH; [exact Hr | lia].
Qed.

(** The powers of the transpose are the transposes of the powers. *)
Lemma mpow_transpose (a : matrix R) (i r c : nat) :
  nrows a = ncols a -> r < nrows a -> c < nrows a ->
  entry (mpow (transpose a) i) r c = entry (mpow a i) c r.
Proof.
  intros Hsq. revert r c. induction i as [| i IH]; intros r c Hr Hc.
  - cbn [mpow entry eye]. rewrite (Nat.eqb_sym r c). reflexivity.
  - cbn [mpow].
    assert (Hsq' : nrows (transpose a) = ncols (transpose a))
      by (cbn [nrows ncols transpose]; congruence).
    destruct (@shape_mpow R _ a i Hsq) as [Hpr Hpc].
    destruct (@shape_mpow R _ (transpose a) i Hsq') as [Hqr Hqc].
    cbn [nrows transpose] in Hqr, Hqc.
    rewrite (@mprod_ext_l (mpow (transpose a) i) (transpose (mpow a i))
               (transpose a) r c).
    + rewrite transpose_mprod by lia.
      rewrite mpow_commutes by assumption. reflexivity.
    + cbn [ncols transpose]. lia.
    + intros k Hk. cbn [entry transpose]. apply IH; [exact Hr | lia].
Qed.

(** X15.  Duality of controllability and observability: for a model over
    a commutative ring, the observability matrix of the model is the
    transpose of the controllability matrix of its dual system. *)
Theorem observability_dual_controllability (sys_ : StateSpace R) :
  constructed sys_ ->
  exists d obsv ctrb,
    dual_system sys_ = Ok d /\
    observability sys_ = Ok obsv /\
    controllability d = Ok ctrb /\
    mat_eq obsv (transpose ctrb).
Proof.
  intros Hself. pose proof Hself as (Ha & Hb & Hc & Hd1 & Hd2 & Hi & Ho).
  unfold dual_system.
  rewrite StateSpace_init_Ok by (cbn [nrows ncols transpose]; congruence).
  set (d := mk_StateSpace (transpose (A sys_)) (transpose (C sys_))
                          (transpose (B sys_)) (transpose (D sys_))
                          (ncols (transpose (C sys_))) (nrows (transpose (B sys_)))
                          (dt sys_)).
  assert (Hd : constructed d)
    by (unfold constructed, d; cbn [A B C D inputs outputs nrows ncols transpose];
        repeat split; congruence).
  unfold observability, controllability.
  destruct (@observability_loop_blocks R _ sys_ (nrows (A sys_) - 1) 1 (C sys_) Hself)
    as (obsv & Eo & Hoc & Hor & Hokeep & Hoblock); [exact Hc | lia |].
  destruct (@controllability_loop_blocks R _ d (nrows (A d) - 1) 1 (B d) Hd)
    as (ctrb & Ec & Hcr & Hcc & Hckeep & Hcblock); [apply Hd | lia |].
  exists d, obsv, ctrb. split; [reflexivity |]. split; [exact Eo |]. split; [exact Ec |].
  cbn [A B nrows ncols transpose] in Ec, Hcr, Hcc, Hckeep, Hcblock.
  unfold d in Hcr, Hcc, Hckeep, Hcblock.
  cbn [A B nrows ncols transpose] in Hcr, Hcc, Hckeep, Hcblock.
  rewrite <- Ha in Hcr, Hcc, Hcblock.
  split; [cbn [nrows transpose]; rewrite Hor, Hcc; reflexivity |].
  split; [cbn [ncols transpose]; rewrite Hoc, Hcr; reflexivity |].
  intros i j Hi' Hj'. rewrite Hor in Hi'. rewrite Hoc in Hj'.
  cbn [entry transpose].
  set (p := nrows (C sys_)) in *.
  assert (Hp : p <> 0) by (intros Hp0; rewrite Hp0 in Hi'; lia).
  pose proof (Nat.div_mod_eq i p) as Hdm.
  pose proof (Nat.mod_upper_bound i p Hp) as Hm.
  assert (Hq : i / p < 1 + (nrows (A sys_) - 1)) by nia.
  replace i with (i / p * p + i mod p) by lia.
  destruct (Nat.eq_dec (i / p) 0) as [H0 | H0].
  - rewrite H0. cbn [Nat.mul Nat.add].
    rewrite Hokeep by lia. rewrite Hckeep by lia. reflexivity.
  - rewrite Hoblock by lia. rewrite Hcblock by lia.
    rewrite <- (@transpose_mprod (C sys_) (mpow (A sys_) (i / p)) j (i mod p)).
    + apply mprod_ext_l.
      * destruct (@shape_mpow R _ (A sys_) (i / p) Ha) as [Hpr _].
        destruct (@shape_mpow R _ (transpose (A sys_)) (i / p)) as [_ Hqc];
          [cbn [nrows ncols transpose]; congruence |].
        cbn [nrows ncols transpose] in *. lia.
      * intros k Hk. cbn [ncols transpose] in Hk. cbn [entry transpose].
        destruct (@shape_mpow R _ (A sys_) (i / p) Ha) as [Hpr _].
        symmetry. apply mpow_transpose; [exact Ha | lia | lia].
    + destruct (@shape_mpow R _ (A sys_) (i / p) Ha) as [Hpr _]. lia.
Qed.

End Duality.

(** ** The dual of a sum *)

Section DualOfSum.

Context {R : Type} `{Scalar R}.

Lemma mat_eq_transpose (a b : matrix R) :
  mat_eq a b -> mat_eq (transpose a) (transpose b).
Proof.
  intros (Hr & Hc & He). split; [exact Hc |]. split; [exact Hr |].
  intros i j Hi Hj. cbn [entry transpose]. apply He; assumption.
Qed.

Lemma transpose_block_diag (a c : matrix R) :
  mat_eq (transpose (block_diag a c)) (block_diag (transpose a) (transpose c)).
Proof.
  split; [reflexivity |]. split; [reflexivity |].
  intros i j Hi Hj.
  cbn [entry nrows ncols transpose block_diag block_upper zeros].
  destruct (j <? nrows a), (i <? ncols a); reflexivity.
Qed.

Lemma sampling_time_reads_dt (msg : string) (s1 s2 d1 d2 : StateSpace R) :
  dt d1 = dt s1 -> dt d2 = dt s2 ->
  sampling_time msg d1 d2 = sampling_time msg s1 s2.
Proof. intros E1 E2. unfold sampling_time. rewrite E1, E2. reflexivity. Qed.

(** X16.  The dual system commutes with the parallel connection: when
    [s1 + s2] is defined, so is the sum of the duals of [s1] and [s2],
    and it has the matrices, entry by entry, and the sampling time of
    the dual of [s1 + s2]. *)
Theorem dual_system_of_sum (s1 s2 s : StateSpace R) :
  constructed s1 -> constructed s2 ->
  StateSpace_add s1 s2 = Ok s ->
  exists d1 d2 ds d,
    dual_system s1 = Ok d1 /\ dual_system s2 = Ok d2 /\
    dual_system s = Ok ds /\ StateSpace_add d1 d2 = Ok d /\
    mat_eq (A ds) (A d) /\ mat_eq (B ds) (B d) /\
    mat_eq (C ds) (C d) /\ mat_eq (D ds) (D d) /\ dt ds = dt d.
Proof.
  intros Hs1 Hs2 Hadd.
  pose proof Hs1 as (Ha1 & Hb1 & Hc1 & Hd1 & Hd1' & Hi1 & Ho1).
  pose proof Hs2 as (Ha2 & Hb2 & Hc2 & Hd2 & Hd2' & Hi2 & Ho2).
  assert (Hshape : shape (D s1) = shape (D s2)).
  { unfold StateSpace_add in Hadd.
    destruct (shape_eqb (shape (D s1)) (shape (D s2))) eqn:E;
      [apply shape_eqb_eq; exact E | discriminate Hadd]. }
  pose proof (StateSpace_add_same_shape Hs1 Hs2 Hshape) as H1.
  destruct (sampling_time "different sampling times" s1 s2) as [t | e] eqn:Et;
    [| congruence].
  destruct H1 as (s' & Es' & HA & HB & HC & HD & Hdt & Hs).
  rewrite Hadd in Es'. injection Es' as <-.
  set (d1 := mk_StateSpace (transpose (A s1)) (transpose (C s1))
                           (transpose (B s1)) (transpose (D s1))
                           (ncols (transpose (C s1))) (nrows (transpose (B s1)))
                           (dt s1)).
  set (d2 := mk_StateSpace (transpose (A s2)) (transpose (C s2))
                           (transpose (B s2)) (transpose (D s2))
                           (ncols (transpose (C s2))) (nrows (transpose (B s2)))
                           (dt s2)).
  assert (Hc1' : constructed d1)
    by (unfold constructed, d1; cbn [A B C D inputs outputs nrows ncols transpose];
        repeat split; congruence).
  assert (Hc2' : constructed d2)
    by (unfold constructed, d2; cbn [A B C D inputs outputs nrows ncols transpose];
        repeat split; congruence).
  apply shape_eq in Hshape as [Hr Hc].
  assert (Hshape' : shape (D d1) = shape (D d2))
    by (unfold shape, d1, d2; cbn [D nrows ncols transpose]; congruence).
  pose proof (StateSpace_add_same_shape Hc1' Hc2' Hshape') as H2.
  rewrite (@sampling_time_reads_dt "different sampling times" s1 s2 d1 d2
             eq_refl eq_refl), Et in H2.
  destruct H2 as (d & Ed & HA' & HB' & HC' & HD' & Hdt' & _).
  pose proof Hs as (Ha & Hb & Hc' & Hd & Hd' & _).
  exists d1, d2,
    (mk_StateSpace (transpose (A s)) (transpose (C s)) (transpose (B s))
                   (transpose (D s)) (ncols (transpose (C s)))
                   (nrows (transpose (B s))) (dt s)), d.
  split; [unfold dual_system; apply StateSpace_init_Ok;
          cbn [nrows ncols transpose]; congruence |].
  split; [unfold dual_system; apply StateSpace_init_Ok;
          cbn [nrows ncols transpose]; congruence |].
  split; [unfold dual_system; apply StateSpace_init_Ok;
          cbn [nrows ncols transpose]; congruence |].
  split; [exact Ed |]. cbn [A B C D dt].
  split; [| split; [| split; [| split]]].
  - apply mat_eq_trans with (b := transpose (block_diag (A s1) (A s2)));
      [apply mat_eq_transpose; exact HA |].
    apply mat_eq_trans with (b := block_diag (transpose (A s1)) (transpose (A s2)));
      [apply transpose_block_diag | apply mat_eq_sym; exact HA'].
  - rewrite HC, HB'. unfold d1, d2. cbn [B].
    split; [reflexivity |]. split; [reflexivity |]. intros i j _ _. reflexivity.
  - rewrite HB, HC'. unfold d1, d2. cbn [C].
    split; [reflexivity |]. split; [reflexivity |]. intros i j _ _. reflexivity.
  - apply mat_eq_trans with (b := transpose (sum_of (D s1) (D s2)));
      [apply mat_eq_transpose; exact HD |].
    apply mat_eq_sym.
    apply mat_eq_trans with (b := sum_of (D d1) (D d2)); [exact HD' |].
    unfold d1, d2. cbn [D].
    split; [reflexivity |]. split; [reflexivity |]. intros i j _ _. reflexivity.
  - congruence.
Qed.

End DualOfSum.

(** ** The further properties at concrete systems *)

Lemma constructed_one_in_two_out : constructed one_in_two_out.
Proof. unfold constructed. simpl. repeat split. Defined.

Lemma constructed_two_in_one_out (t : option Q) : constructed (two_in_one_out t).
Proof. unfold constructed. simpl. repeat split. Defined.

Lemma constructed_int_ss : constructed int_ss.
Proof. unfold constructed. simpl. repeat split. Defined.

Lemma constructed_int_two_inputs : constructed int_two_inputs.
Proof. unfold constructed. simpl. repeat split. Defined.

Lemma Z_ring_laws : @RingLaws Z Z_scalar.
Proof.
  constructor; intros; cbn [sadd smul szero sone Z_scalar]; lia.
Qed.

Lemma Qeq_bool_symmetric (x y : Q) : Qeq_bool x y = Qeq_bool y x.
Proof.
  apply eq_true_iff_eq. rewrite !Qeq_bool_iff. split; intros Hq; symmetry; exact Hq.
Qed.

(** The dual of a sampled model with two inputs and one output. *)
Lemma dual_system_involution_witness :
  exists d, dual_system (two_in_one_out (Some 1%Q)) = Ok d /\
            inputs d = 1 /\ outputs d = 2 /\ dt d = Some 1%Q /\
            dual_system d = Ok (two_in_one_out (Some 1%Q)).
Proof.
  destruct (dual_system_involution (constructed_two_in_one_out (Some 1%Q)))
    as (d & Ed & Hi & Ho & _ & Ht & Hdd).
  exists d. split; [exact Ed |]. split; [exact Hi |]. split; [exact Ho |].
  split; [exact Ht | exact Hdd].
Defined.

(** The controllability and the observability matrix of the test system. *)
Lemma controllability_blocks_witness :
  exists ctrb, controllability (test_ss None) = Ok ctrb /\
               nrows ctrb = 2 /\ ncols ctrb = 2 /\
               entry ctrb 1 0 = entry test_B 1 0 /\
               entry ctrb 0 1 = entry (mprod (mpow test_A 1) test_B) 0 0.
Proof.
  destruct (controllability_blocks (constructed_test_ss None))
    as (ctrb & Ec & Hr & Hc & Hfirst & Hblock).
  exists ctrb. split; [exact Ec |]. split; [exact Hr |]. split; [exact Hc |].
  split; [apply Hfirst; simpl; lia |].
  apply (Hblock 0 1 0); simpl; lia.
Defined.

Lemma observability_blocks_witness :
  exists obsv, observability (test_ss None) = Ok obsv /\
               nrows obsv = 2 /\ ncols obsv = 2 /\
               entry obsv 0 1 = entry test_C 0 1 /\
               entry obsv 1 1 = entry (mprod test_C (mpow test_A 1)) 0 1.
Proof.
  destruct (observability_blocks (constructed_test_ss None))
    as (obsv & Eo & Hc & Hr & Hfirst & Hblock).
  exists obsv. split; [exact Eo |]. split; [exact Hr |]. split; [exact Hc |].
  split; [apply Hfirst; simpl; lia |].
  apply (Hblock 0 1 1); simpl; lia.
Defined.

(** The test system and the same system with another output equation
    get the same gains. *)
Lemma place_reads_A_and_B_witness :
  controllability (test_ss None) = controllability test_ss_other_output /\
  place (test_ss None) [-1; -2]%Q = place test_ss_other_output [-1; -2]%Q.
Proof.
  destruct (place_reads_A_and_B (test_ss None) test_ss_other_output eq_refl eq_refl)
    as (Hc & _ & Hp).
  split; [exact Hc | exact (Hp [-1; -2]%Q)].
Defined.

(** A compensator with one input around a model with two outputs, and
    unity feedback around the test system. *)
Lemma feedback_ports_witness :
  feedback one_in_two_out (siso 0 0 0 1 None) (-1)
  = Raise (ValueError "shapes not aligned") /\
  exists s, feedback (test_ss None) (siso 0 0 0 1 None) (-1) = Ok s /\
            inputs s = 1 /\ outputs s = 1 /\ nrows (A s) = 3 /\ dt s = None.
Proof.
  split.
  - apply (proj1 (feedback_ports (-1) constructed_one_in_two_out
                    (constructed_siso 0 0 0 1 None))).
    simpl. lia.
  - pose (s0 := value_or (feedback (test_ss None) (siso 0 0 0 1 None) (-1)) no_model).
    assert (Es : feedback (test_ss None) (siso 0 0 0 1 None) (-1) = Ok s0) by returns.
    destruct (proj2 (feedback_ports (-1) (constructed_test_ss None)
                       (constructed_siso 0 0 0 1 None)) s0 Es)
      as (_ & Hi & Ho & Hn & Ht).
    exists s0. split; [exact Es |]. split; [exact Hi |]. split; [exact Ho |].
    split; [exact Hn | exact Ht].
Defined.

(** [ss] on the sampled test system, with a keyword [dt] that is ignored. *)
Lemma ss_copies_model_witness :
  ss no_tf2ss (OneArg (AModel (test_ss (Some 1%Q)))) (Some 2%Q)
  = Ok (test_ss (Some 1%Q)).
Proof.
  exact (ss_copies_model no_tf2ss (Some 2%Q) (constructed_test_ss (Some 1%Q))).
Defined.

(** Equality of models over the rationals. *)
Lemma StateSpace_eq_equivalence_witness :
  StateSpace_eq (test_ss None) (test_ss None) = true /\
  StateSpace_eq (test_ss None) test_ss_other_output
  = StateSpace_eq test_ss_other_output (test_ss None).
Proof.
  destruct (@StateSpace_eq_equivalence Q Q_scalar Qeq_bool_refl Qeq_bool_symmetric
              Qeq_bool_trans) as (Hr & Hs & _).
  split; [apply Hr | apply Hs].
Defined.

(** [place] on the test system without poles. *)
Lemma place_without_poles_witness :
  place (test_ss None) []
  = Raise (TypeError "'float' object is not subscriptable").
Proof.
  pose (T := value_or (to_controllable_form (test_ss None)) (zeros 0 0)).
  pose (TI := value_or (getI T) (zeros 0 0)).
  assert (ET : to_controllable_form (test_ss None) = Ok T) by returns.
  assert (ETI : getI T = Ok TI) by returns.
  exact (proj2 (place_without_poles (test_ss None)) (constructed_test_ss None)
               ltac:(simpl; lia) exact_inv_keeps_shape T TI ET ETI).
Defined.

(** The Lyapunov equation of the test system, with the solver that checks
    the solution X = [[81/16, 1/8], [1/8, 5/4]]. *)
Lemma lyapunov_returns_solution_witness :
  exists X,
    lyapunov (fun _ => true)
             (check_candidate [("p_00", 81 # 16); ("p_10", 1 # 8); ("p_11", 5 # 4)]%Q)
             (test_ss None) = Ok (Some X) /\
    to_rows X = [[81 # 16; 1 # 8]; [1 # 8; 5 # 4]]%Q /\
    (forall i j, i < 2 -> j < 2 -> entry X i j = entry X j i) /\
    exists Z, lyapunov_lhs true test_A X = Ok Z /\ all_zero Z.
Proof.
  pose (cand := [("p_00", 81 # 16); ("p_10", 1 # 8); ("p_11", 5 # 4)]%Q).
  pose (X0 := lyapunov_subs 2 (assignment cand)).
  assert (EX : lyapunov (fun _ => true) (check_candidate cand) (test_ss None)
               = Ok (Some X0)).
  { unfold lyapunov. cbv zeta.
    assert (Es : check_candidate cand (lyapunov_equation true (test_ss None))
                   (lyapunov_unknowns (nrows (A (test_ss None)))) = cand)
      by (vm_compute; reflexivity).
    rewrite Es.
    assert (Ev : forallb (has_value cand) (lyapunov_unknowns (nrows (A (test_ss None))))
                 = true) by (vm_compute; reflexivity).
    unfold cand at 1. rewrite Ev. reflexivity. }
  destruct (@lyapunov_returns_solution Q Q_scalar (fun _ => true) (check_candidate cand)
              (test_ss None) X0 (check_candidate_sound cand) EX)
    as (_ & _ & Hsym & Hsol).
  exists X0. split; [exact EX |]. split; [vm_compute; reflexivity |].
  split; [exact Hsym | exact Hsol].
Defined.

(** With 101 states the entries (100, 10) and (10, 100) are one unknown,
    and the entries (100, 10) and (10, 10) are not. *)
Lemma lyapunov_unknowns_distinct_witness :
  (nth 10 (nth 100 (lyapunov_symbols 101) []) ""
   = nth 100 (nth 10 (lyapunov_symbols 101) []) ""
   <-> (100 = 10 /\ 10 = 100) \/ (100 = 100 /\ 10 = 10)) /\
  (nth 10 (nth 100 (lyapunov_symbols 101) []) ""
   = nth 10 (nth 10 (lyapunov_symbols 101) []) ""
   <-> (100 = 10 /\ 10 = 10) \/ (100 = 10 /\ 10 = 10)).
Proof.
  split.
  - apply (@lyapunov_unknowns_distinct 101 100 10 10 100); lia.
  - apply (@lyapunov_unknowns_distinct 101 100 10 10 10); lia.
Defined.

(** The sum of the test system and the sampled test system, and the sum
    of their duals. *)
Lemma dual_system_of_sum_witness :
  exists s d1 d2 ds d,
    StateSpace_add (test_ss None) (test_ss (Some 1%Q)) = Ok s /\
    dual_system (test_ss None) = Ok d1 /\ dual_system (test_ss (Some 1%Q)) = Ok d2 /\
    dual_system s = Ok ds /\ StateSpace_add d1 d2 = Ok d /\
    mat_eq (A ds) (A d) /\ mat_eq (B ds) (B d) /\
    mat_eq (C ds) (C d) /\ mat_eq (D ds) (D d) /\ dt ds = dt d.
Proof.
  pose (s0 := value_or (StateSpace_add (test_ss None) (test_ss (Some 1%Q))) no_model).
  assert (Es : StateSpace_add (test_ss None) (test_ss (Some 1%Q)) = Ok s0) by returns.
  destruct (dual_system_of_sum (constructed_test_ss None)
              (constructed_test_ss (Some 1%Q)) Es) as (d1 & d2 & ds & d & Hrest).
  exists s0, d1, d2, ds, d. split; [exact Es | exact Hrest].
Defined.

(** *** Models with integer entries *)

#[local] Existing Instance Z_scalar.

(** The negation of the integer test system, twice. *)
Lemma StateSpace_neg_involution_witness :
  exists s1 s2,
    StateSpace_neg int_ss = Ok s1 /\ StateSpace_neg s1 = Ok s2 /\
    to_rows (C s1) = [[-4; 0]]%Z /\
    mat_eq (C s2) (C int_ss) /\ mat_eq (D s2) (D int_ss).
Proof.
  destruct (@StateSpace_neg_involution Z Z_scalar int_ss Z.opp_involutive
              constructed_int_ss)
    as (s1 & s2 & E1 & E2 & _ & _ & HC1 & _ & _ & _ & _ & _ & _ & HC2 & HD2 & _).
  exists s1, s2. split; [exact E1 |]. split; [exact E2 |].
  split; [rewrite HC1; vm_compute; reflexivity |].
  split; [exact HC2 | exact HD2].
Defined.

(** The observability matrix of a model with two states, two inputs and
    one output, and the controllability matrix of its dual. *)
Lemma observability_dual_controllability_witness :
  exists d obsv ctrb,
    dual_system int_two_inputs = Ok d /\
    observability int_two_inputs = Ok obsv /\
    controllability d = Ok ctrb /\
    mat_eq obsv (transpose ctrb).
Proof.
  exact (observability_dual_controllability Z_ring_laws constructed_int_two_inputs).
Defined.
